(** * Live event-detection pipeline: a shallow embedding

    The development follows the Python sources of the pipeline:

    - [grid_pipeline/schemas.py]   : [Position], [Player], [Snapshot], [TacticalEvent]
    - [grid_pipeline/datause.py]   : [hp_bucket], [build_rows_from_series_state]
    - [grid_pipeline/polling.py]   : [GRIDPoller.poll_snapshot], [GRIDPoller._save_history],
                                     [SnapshotDiffer.diff]
    - [grid_pipeline/event_log.py] : [TacticalEventLogger]
    - [agents/data_agent.py]       : [DataAgent._run_polling]
    - [agents/VLM.py]              : [VLM.query_vlm], [VLM.run]

    Conventions.  Python [str] is [string]; [Optional[T]] is [option T];
    Python [int] is [Z]; numbers read from JSON and clock readings are exact
    rationals [Q].  A [Dict[str, V]] that is iterated is an association list in
    insertion order whose keys are pairwise distinct ([dict_wf]); a dict that is
    only probed and updated by key is a [gmap].  Mutable objects become
    explicit state; the polling tick runs in a small state-and-log monad. *)

From Stdlib Require Import QArith Qround Qabs Lqa Ascii.
From stdpp Require Import gmap strings list fin_maps pretty.

(** ** Python dictionaries that are iterated *)

Module PyDict.

Definition dict (V : Type) : Type := list (string * V).

Definition keys {V} (d : dict V) : list string := d.*1.
Definition values {V} (d : dict V) : list V := d.*2.

(** [d.get(k)] / [d[k]] *)
Fixpoint get {V} (d : dict V) (k : string) : option V :=
  match d with
  | [] => None
  | (k', v) :: d' => if String.eqb k' k then Some v else get d' k
  end.

(** [k in d] *)
Definition mem {V} (k : string) (d : dict V) : bool :=
  match get d k with Some _ => true | None => false end.

(** Keys of a Python dict are unique. *)
Definition dict_wf {V} (d : dict V) : Prop := NoDup (keys d).

End PyDict.

(** ** grid_pipeline/schemas.py *)

Module Schemas.
Import PyDict.

Record Position := mkPosition {
  x : option Q;
  y : option Q;
  region_rc : string;
  x_band : string;
  y_band : string;
  quadrant : string
}.

(** [field(default_factory=Position)] *)
Definition default_Position : Position :=
  mkPosition None None "Unknown" "Unknown" "Unknown" "Unknown".

Record Player := mkPlayer {
  id : string;
  name : string;
  team_name : string;
  side : string;
  agent : string;
  alive : bool;
  hp_bucket : string;
  armor_bucket : string;
  weapon : option string;
  position : Position
}.

Record Team := mkTeam {
  t_team_name : string;
  t_side : string;
  t_players : list Player
}.

Record Snapshot := mkSnapshot {
  series_id : string;
  game_id : string;
  timestamp : string;
  teams : list Team;
  players : dict Player
}.

Record TacticalEvent := mkTacticalEvent {
  event_type : string;
  ev_timestamp : string;
  description : string;
  metadata : dict string
}.

End Schemas.

(** ** grid_pipeline/polling.py : SnapshotDiffer *)

Module SnapshotDiffer.
Import PyDict Schemas.

(** The dict-shaped change events built by [diff].  A key that the
    source leaves out of the dict reads as [None] through [change.get]. *)
Record Change := mkChange {
  c_type : string;
  c_player : Player;
  c_team : option string;
  c_old_weapon : option string;
  c_new_weapon : option string
}.

Definition player_died (new_p : Player) : Change :=
  mkChange "PLAYER_DIED" new_p (Some (team_name new_p)) None None.

Definition weapon_change (old_p new_p : Player) : Change :=
  mkChange "WEAPON_CHANGE" new_p None (weapon old_p) (weapon new_p).

(** Truthiness of an [Optional[str]]. *)
Definition truthy (w : option string) : bool :=
  match w with
  | None => false
  | Some s => negb (String.eqb s "")
  end.

(** [a != b] on [Optional[str]]. *)
Definition weapon_neq (a b : option string) : bool :=
  match a, b with
  | None, None => false
  | Some s, Some t => negb (String.eqb s t)
  | _, _ => true
  end.

(** The body of the [for pid, new_p in new.players.items()] loop. *)
Definition diff_player (old_players : dict Player) (entry : string * Player)
  : list Change :=
  let '(pid, new_p) := entry in
  match get old_players pid with
  | None => []
  | Some old_p =>
      (if alive old_p && negb (alive new_p) then [player_died new_p] else [])
      ++
      (if weapon_neq (weapon old_p) (weapon new_p) && truthy (weapon new_p)
       then [weapon_change old_p new_p] else [])
  end.

Definition diff (old : option Snapshot) (new : Snapshot) : list Change :=
  match old with
  | None => []
  | Some o => flat_map (diff_player (players o)) (players new)
  end.

End SnapshotDiffer.

(** ** grid_pipeline/event_log.py : TacticalEventLogger *)

Module TacticalEventLogger.
Import PyDict Schemas SnapshotDiffer.

Record t := mkLogger {
  event_log : list TacticalEvent;
  conclusions : list string
}.

(** [__init__] *)
Definition init : t := mkLogger [] [].

(** [text in self.conclusions] *)
Definition str_in_list (text : string) (l : list string) : bool :=
  existsb (String.eqb text) l.

Definition _add_conclusion (text : string) (self : t) : t :=
  if str_in_list text (conclusions self) then self
  else mkLogger (event_log self) (conclusions self ++ [text]).

(** [len([p for p in current_snapshot.players.values() if p.alive])] *)
Definition alive_count (s : Snapshot) : Z :=
  Z.of_nat (length (List.filter alive (values (players s)))).

(** [len(current_snapshot.players)] *)
Definition total_players (s : Snapshot) : Z :=
  Z.of_nat (length (players s)).

Definition first_death_event (now : string) (player : Player) : TacticalEvent :=
  mkTacticalEvent
    "FIRST_DEATH"
    now
    ("First death of the round: " +:+ name player +:+ " (" +:+ team_name player +:+ ")")
    [ ("player", name player);
      ("team", team_name player);
      ("position", region_rc (position player) +:+ " (" +:+ quadrant (position player) +:+ ")");
      ("side", side player) ].

Definition entry_conclusion (player : Player) : string :=
  "Entry engagement lost by " +:+ team_name player +:+ " at "
    +:+ region_rc (position player) +:+ ".".

Definition upgrade_conclusion (player : Player) (new_w : string) : string :=
  name player +:+ " upgraded to " +:+ new_w +:+ ". Strength increased.".

(** [new_w in ["Vandal", "Phantom", "Operator"]] *)
Definition premium (new_w : option string) : option string :=
  match new_w with
  | Some w => if str_in_list w ["Vandal"; "Phantom"; "Operator"] then Some w else None
  | None => None
  end.

(** [now] is the reading of [datetime.now()] taken when a [TacticalEvent]
    is constructed. *)
Definition process_change (now : string) (change : Change)
    (current_snapshot : Snapshot) (self : t) : t :=
  let player := c_player change in
  if String.eqb (c_type change) "PLAYER_DIED" then
    if Z.eqb (alive_count current_snapshot) (total_players current_snapshot - 1) then
      let self1 := mkLogger (event_log self ++ [first_death_event now player])
                            (conclusions self) in
      _add_conclusion (entry_conclusion player) self1
    else self
  else if String.eqb (c_type change) "WEAPON_CHANGE" then
    match premium (c_new_weapon change) with
    | Some new_w => _add_conclusion (upgrade_conclusion player new_w) self
    | None => self
    end
  else self.

(** [self.conclusions[-5:]] *)
Definition get_tactical_conclusions (self : t) : list string :=
  drop (length (conclusions self) - 5) (conclusions self).

End TacticalEventLogger.

(** ** grid_pipeline/datause.py *)

Module Datause.

(** [a > b] on numbers. *)
Definition Qgtb (a b : Q) : bool := negb (Qle_bool a b).

Definition hp_bucket (current maximum : option Q) : string :=
  match current, maximum with
  | None, _ => "unknown"
  | Some _, None => "unknown"
  | Some c, Some m =>
      if Qeq_bool m 0 then "unknown"
      else
        let ratio := (c / m)%Q in
        if Qgtb ratio (80 # 100) then "full"
        else if Qgtb ratio (30 # 100) then "damaged"
        else "critical"
  end.

Definition armor_bucket (armor : option Q) : string :=
  match armor with
  | None => "unknown"
  | Some a =>
      if Qle_bool a 0 then "none"
      else if Qle_bool a 25 then "light"
      else "heavy"
  end.

(** The series-state document returned by the remote service, as far as
    [build_rows_from_series_state] reads it.  The numeric fields are
    the values after [to_float]. *)
Record PlayerState := mkPlayerState {
  ps_name : string;
  ps_alive : bool;
  currentHealth : option Q;
  maxHealth : option Q;
  currentArmor : option Q
}.

Record TeamState := mkTeamState {
  typename : string;
  ts_name : string;
  ts_side : string;
  ts_players : list PlayerState
}.

Record GameState := mkGameState {
  g_id : string;
  g_teams : list TeamState
}.

Record SeriesState := mkSeriesState {
  ss_id : string;
  games : list GameState
}.

(** One row per player; the position, region and inventory columns are
    not read by the poller and are left out. *)
Record Row := mkRow {
  r_series_id : string;
  r_game_id : string;
  r_team_name : string;
  r_side : string;
  r_player_name : string;
  r_alive : bool;
  r_hp_bucket : string;
  r_armor_bucket : string
}.

Definition row_of (series_id : string) (g : GameState) (t : TeamState)
    (p : PlayerState) : Row :=
  mkRow series_id (g_id g) (ts_name t) (ts_side t) (ps_name p) (ps_alive p)
        (hp_bucket (currentHealth p) (maxHealth p))
        (armor_bucket (currentArmor p)).

Definition rows_of_team (series_id : string) (g : GameState) (t : TeamState)
  : list Row :=
  if String.eqb (typename t) "GameTeamStateValorant"
  then List.map (row_of series_id g t) (ts_players t)
  else [].

Definition build_rows_from_series_state (series_state : SeriesState) : list Row :=
  flat_map (fun g => flat_map (rows_of_team (ss_id series_state) g) (g_teams g))
           (games series_state).

End Datause.

(** ** grid_pipeline/polling.py : GRIDPoller *)

Module GRIDPoller.
Import PyDict Schemas Datause.

Record t := mkPoller {
  p_series_id : string;
  poll_interval : Z;
  running : bool;
  last_snapshot : option Snapshot;
  snapshot_history : list Snapshot
}.

(** [__init__] (the series id is non-empty, otherwise [ValueError]). *)
Definition init (series_id : string) : t :=
  mkPoller series_id 5 false None [].

(** [fetched] is the result of [fetch_series_state] (which returns [None]
    on any request failure); [now] is the clock reading taken by the
    [timestamp] default factory. *)
Definition poll_snapshot (self : t) (fetched : option SeriesState) (now : string)
  : option Snapshot :=
  match fetched with
  | None => None
  | Some state =>
      match build_rows_from_series_state state with
      | [] => None
      | row0 :: _ =>
          Some (mkSnapshot (p_series_id self) (r_game_id row0) now [] [])
      end
  end.

(** [l[-n:]] for [n > 0] *)
Definition last_n {A} (n : nat) (l : list A) : list A :=
  drop (length l - n) l.

(** Entries of [DATA/history.json]. *)
Record PlayerEntry := mkPlayerEntry {
  e_alive : bool;
  e_hp_bucket : string;
  e_weapon : option string
}.

Record HistoryEntry := mkHistoryEntry {
  h_series_id : string;
  h_game_id : string;
  h_timestamp : string;
  h_players : dict PlayerEntry
}.

Definition snap_dict (snap : Snapshot) : HistoryEntry :=
  mkHistoryEntry
    (series_id snap) (game_id snap) (timestamp snap)
    (List.map (fun '(pid, p) => (pid, mkPlayerEntry (alive p) (Schemas.hp_bucket p) (weapon p)))
              (players snap)).

Definition history_data (self : t) : list HistoryEntry :=
  List.map snap_dict (last_n 50 (snapshot_history self)).

(** The file is [None] until this process has written it.  [write_ok]
    tells whether [open]/[json.dump] went through; a failure is caught and
    logged and leaves the file as it was. *)
Definition _save_history (self : t) (write_ok : bool)
    (file : option (list HistoryEntry)) : option (list HistoryEntry) :=
  if write_ok then Some (history_data self) else file.

End GRIDPoller.

(** ** agents/data_agent.py : DataAgent._run_polling *)

Module DataAgent.
Import PyDict Schemas SnapshotDiffer.

Record t := mkAgent {
  grid_poller : GRIDPoller.t;
  tactical_logger : TacticalEventLogger.t;
  history_file : option (list GRIDPoller.HistoryEntry)
}.

(** [__init__]: a fresh poller and logger; [file] is whatever
    [DATA/history.json] held before, as far as this process knows. *)
Definition init (series_id : string) : t :=
  mkAgent (GRIDPoller.init series_id) TacticalEventLogger.init None.

(** The calls one loop iteration makes, in the order it makes them. *)
Inductive Op :=
| OpPoll (result : option Snapshot)
| OpAppendHistory (snapshot : Snapshot)
| OpSaveHistory
| OpDiff (old : option Snapshot) (new : Snapshot)
| OpProcessChange (change : Change)
| OpSetLastSnapshot (snapshot : Snapshot)
| OpSleep (seconds : Z).

(** State and call log. *)
Definition M (A : Type) : Type := t -> A * t * list Op.

#[export] Instance agent_ret : MRet M := fun A a s => (a, s, []).

#[export] Instance agent_bind : MBind M := fun A B f m s =>
  let '(a, s1, l1) := m s in
  let '(b, s2, l2) := f a s1 in
  (b, s2, l1 ++ l2).

Definition state_of {A} (r : A * t * list Op) : t := r.1.2.
Definition log_of {A} (r : A * t * list Op) : list Op := r.2.

Definition with_poller (f : GRIDPoller.t -> GRIDPoller.t) (s : t) : t :=
  mkAgent (f (grid_poller s)) (tactical_logger s) (history_file s).

(** [self.grid_poller.poll_snapshot()] *)
Definition poll_snapshot (poll : GRIDPoller.t -> option Snapshot)
  : M (option Snapshot) :=
  fun s => let r := poll (grid_poller s) in (r, s, [OpPoll r]).

(** [self.grid_poller.snapshot_history.append(snapshot)] *)
Definition append_history (snapshot : Snapshot) : M unit :=
  fun s =>
    (tt,
     with_poller (fun p =>
       GRIDPoller.mkPoller (GRIDPoller.p_series_id p) (GRIDPoller.poll_interval p)
         (GRIDPoller.running p) (GRIDPoller.last_snapshot p)
         (GRIDPoller.snapshot_history p ++ [snapshot])) s,
     [OpAppendHistory snapshot]).

(** [self.grid_poller._save_history()] *)
Definition save_history (write_ok : bool) : M unit :=
  fun s =>
    (tt,
     mkAgent (grid_poller s) (tactical_logger s)
             (GRIDPoller._save_history (grid_poller s) write_ok (history_file s)),
     [OpSaveHistory]).

(** [self.grid_poller.differ.diff(self.grid_poller.last_snapshot, snapshot)] *)
Definition differ_diff (snapshot : Snapshot) : M (list Change) :=
  fun s =>
    let old := GRIDPoller.last_snapshot (grid_poller s) in
    (diff old snapshot, s, [OpDiff old snapshot]).

(** [self.tactical_logger.process_change(change, snapshot)] *)
Definition process_change (now : string) (change : Change) (snapshot : Snapshot)
  : M unit :=
  fun s =>
    (tt,
     mkAgent (grid_poller s)
             (TacticalEventLogger.process_change now change snapshot (tactical_logger s))
             (history_file s),
     [OpProcessChange change]).

(** [self.grid_poller.last_snapshot = snapshot] *)
Definition set_last_snapshot (snapshot : Snapshot) : M unit :=
  fun s =>
    (tt,
     with_poller (fun p =>
       GRIDPoller.mkPoller (GRIDPoller.p_series_id p) (GRIDPoller.poll_interval p)
         (GRIDPoller.running p) (Some snapshot) (GRIDPoller.snapshot_history p)) s,
     [OpSetLastSnapshot snapshot]).

(** [time.sleep(self.grid_poller.poll_interval)] *)
Definition sleep_interval : M unit :=
  fun s => (tt, s, [OpSleep (GRIDPoller.poll_interval (grid_poller s))]).

(** [self.grid_poller.running = True] *)
Definition set_running (b : bool) : M unit :=
  fun s =>
    (tt,
     with_poller (fun p =>
       GRIDPoller.mkPoller (GRIDPoller.p_series_id p) (GRIDPoller.poll_interval p)
         b (GRIDPoller.last_snapshot p) (GRIDPoller.snapshot_history p)) s,
     []).

Definition get_running : M bool :=
  fun s => (GRIDPoller.running (grid_poller s), s, []).

(** [for change in changes: ...] *)
Fixpoint for_each {A} (l : list A) (body : A -> M unit) : M unit :=
  match l with
  | [] => mret tt
  | a :: l' => body a ;; for_each l' body
  end.

(** What one iteration reads from outside: the poller's [poll_snapshot]
    method, the clock reading stamped on tactical events, and whether the
    history file can be written. *)
Record TickInput := mkTickInput {
  poll : GRIDPoller.t -> option Snapshot;
  ev_now : string;
  write_ok : bool
}.

(** The body of the [while] loop.  None of the modelled calls raises, so
    the [except Exception] branch (log the error, sleep one second) is
    never taken here. *)
Definition tick (i : TickInput) : M unit :=
  snapshot ← poll_snapshot (poll i) ;
  match snapshot with
  | Some snapshot =>
      append_history snapshot ;;
      save_history (write_ok i) ;;
      changes ← differ_diff snapshot ;
      for_each changes (fun change => process_change (ev_now i) change snapshot) ;;
      set_last_snapshot snapshot
  | None => mret tt
  end ;;
  sleep_interval.

(** [while self.grid_poller.running], one input per iteration. *)
Fixpoint loop (inputs : list TickInput) : M unit :=
  match inputs with
  | [] => mret tt
  | i :: rest =>
      r ← get_running ;
      if (r : bool) then (tick i ;; loop rest) else mret tt
  end.

Definition _run_polling (inputs : list TickInput) : M unit :=
  set_running true ;; loop inputs.

(** The iteration input of the real poller: [fetched] is the remote
    answer and [now] the clock reading stamped on the snapshot. *)
Definition grid_input (fetched : option Datause.SeriesState) (now ev_now : string)
    (write_ok : bool) : TickInput :=
  mkTickInput (fun self => GRIDPoller.poll_snapshot self fetched now) ev_now write_ok.

End DataAgent.

(** ** agents/VLM.py *)

Module VLM.

(** *** Strings

    A text is held as its UTF-8 bytes.  The labels are ASCII, and an
    ASCII word occurs in a text exactly when its bytes occur in the
    text's bytes, so [in] is containment of byte strings. *)

(** [needle in hay] *)
Fixpoint contains (needle hay : string) : bool :=
  String.prefix needle hay ||
  match hay with
  | EmptyString => false
  | String _ hay' => contains needle hay'
  end.

(** [str.upper] on ASCII text: one character, then a text *)
Definition upper_ascii (c : ascii) : ascii :=
  let n := N_of_ascii c in
  if ((97 <=? n) && (n <=? 122))%N then ascii_of_N (n - 32) else c.

Fixpoint ascii_upper (s : string) : string :=
  match s with
  | EmptyString => EmptyString
  | String c s' => String (upper_ascii c) (ascii_upper s')
  end.

(** [str.isspace] on one character: TAB, LF, VT, FF, CR, FS, GS, RS, US, SPACE *)
Definition isspace (c : ascii) : bool :=
  let n := N_of_ascii c in
  (((9 <=? n) && (n <=? 13)) || ((28 <=? n) && (n <=? 32)))%N.

Fixpoint lstrip (s : string) : string :=
  match s with
  | EmptyString => EmptyString
  | String c s' => if isspace c then lstrip s' else s
  end.

Definition rstrip (s : string) : string := String.rev (lstrip (String.rev s)).

(** [str.strip] on ASCII text *)
Definition strip (s : string) : string := rstrip (lstrip s).

(** Every byte is below 128. *)
Fixpoint is_ascii (s : string) : bool :=
  match s with
  | EmptyString => true
  | String c s' => (N_of_ascii c <? 128)%N && is_ascii s'
  end.

(** Python's own [str.strip] and [str.upper] on arbitrary text.  They
    follow Unicode (its white space, its full case mapping, under which
    a letter outside ASCII can become an ASCII one) and are taken as
    they are: what is used of them is that on ASCII text they are the
    two functions above. *)
Record StrMethods := mkStrMethods {
  py_strip : string → string;
  py_upper : string → string;
  py_strip_ascii : ∀ s, is_ascii s = true → py_strip s = strip s;
  py_upper_ascii : ∀ s, is_ascii s = true → py_upper s = ascii_upper s
}.

(** The two methods as they act when all text is ASCII. *)
Definition ascii_text : StrMethods :=
  mkStrMethods strip ascii_upper (fun _ _ => eq_refl) (fun _ _ => eq_refl).

(** *** query_vlm *)

(** [requests.post(..., timeout=5)] *)
Definition REQUEST_TIMEOUT : Z := 5.

(** The value under the ["response"] key of the reply's JSON body. *)
Inductive ResponseField :=
| Absent                      (* no such key: [.get] gives the default *)
| Text (text : string)
| NotText (error : string).   (* not a [str]: [.strip()] raises; [str(e)] *)

(** What the [try] block meets before the label filter. *)
Inductive PostOutcome :=
| RequestException (error : string)  (* connection error, timeout, bad status *)
| OtherException (error : string)
| Json (response : ResponseField).

Definition LABELS : list string := ["KILL"; "DEATH"; "ROUND_END"; "NO_EVENT"].

(** [for label in LABELS: if label in text: return label] then
    [return "NO_EVENT"] *)
Fixpoint filter_label (labels : list string) (text : string) : string :=
  match labels with
  | [] => "NO_EVENT"
  | label :: labels' => if contains label text then label else filter_label labels' text
  end.

Definition error_sentinel (e : string) : string := "ERROR: " +:+ e.

(** [post] is the remote call, given the timeout it is made with; [py]
    stands for the string methods the reply text is put through. *)
Definition query_vlm (py : StrMethods) (post : Z -> PostOutcome) : string :=
  match post REQUEST_TIMEOUT with
  | RequestException e => error_sentinel e
  | OtherException e => error_sentinel e
  | Json Absent => filter_label LABELS (py_upper py (py_strip py "NO_EVENT"))
  | Json (Text s) => filter_label LABELS (py_upper py (py_strip py s))
  | Json (NotText e) => error_sentinel e
  end.

(** *** run: debouncing *)

Definition EVENT_COOLDOWN : Q := 2.

Record t := mkVLM {
  running : bool;
  last_event_time : gmap string Q
}.

(** [__init__] *)
Definition init : t :=
  mkVLM true (<["KILL" := 0%Q]> (<["DEATH" := 0%Q]> (<["ROUND_END" := 0%Q]> ∅))).

(** What an iteration prints (the clock prefix of the line left out). *)
Inductive Printed :=
| Detected (event : string)   (* "DETECTED: <event>" *)
| Plain (event : string).

(** The debouncing and reporting block of one iteration: [current_time]
    is the reading of [time.time()], [event] the result of [query_vlm]. *)
Definition report (self : t) (current_time : Q) (event : string)
  : t * option Printed :=
  match last_event_time self !! event with
  | Some last =>
      if Datause.Qgtb (current_time - last) EVENT_COOLDOWN
      then (mkVLM (running self) (<[event := current_time]> (last_event_time self)),
            Some (Detected event))
      else (self, None)
  | None =>
      if String.eqb event "NO_EVENT" then (self, Some (Plain event))
      else if contains "ERROR" event then (self, Some (Plain event))
      else (self, None)
  end.

(** The loop over the classified frames, in call order. *)
Fixpoint run (self : t) (results : list (Q * string)) : t * list (option Printed) :=
  match results with
  | [] => (self, [])
  | (current_time, event) :: rest =>
      let '(self1, out) := report self current_time event in
      let '(self2, outs) := run self1 rest in
      (self2, out :: outs)
  end.

(** The time at which [label] was last reported as detected within a
    processed prefix, read off the printed lines. *)
Fixpoint last_surfaced (label : string) (results : list (Q * string))
    (outs : list (option Printed)) : option Q :=
  match results, outs with
  | (time, event) :: results', out :: outs' =>
      match last_surfaced label results' outs' with
      | Some later => Some later
      | None =>
          match out with
          | Some _ => if String.eqb event label then Some time else None
          | None => None
          end
      end
  | _, _ => None
  end.

Definition actionable (event : string) : bool :=
  String.eqb event "KILL" || String.eqb event "DEATH" || String.eqb event "ROUND_END".

End VLM.

(** ** Vocabulary of the statements and sample data *)

Module Stmt.
Import PyDict Schemas SnapshotDiffer.

(** The same player with another [alive] flag, every other field kept. *)
Definition with_alive (b : bool) (p : Player) : Player :=
  mkPlayer (id p) (name p) (team_name p) (side p) (agent p) b
           (Schemas.hp_bucket p) (Schemas.armor_bucket p) (weapon p) (position p).

(** A sequence of [process_change] calls on one logger, each with the
    clock reading, the change and the snapshot it is given. *)
Definition process_all (calls : list (string * Change * Snapshot))
    (self : TacticalEventLogger.t) : TacticalEventLogger.t :=
  foldl (fun st '(now, change, snapshot) =>
           TacticalEventLogger.process_change now change snapshot st)
        self calls.

(** [needle] occurs in [hay] as a run of consecutive characters. *)
Definition substring_of (needle hay : string) : Prop :=
  ∃ before after, hay = before +:+ needle +:+ after.

(** [result] is the first label of [labels], in list order, that occurs
    in [text], or ["NO_EVENT"] when none does. *)
Definition first_label_in (labels : list string) (text result : string) : Prop :=
  (∃ earlier later,
      labels = earlier ++ result :: later ∧
      substring_of result text ∧
      ∀ label, label ∈ earlier → ¬ substring_of label text)
  ∨ (result = "NO_EVENT" ∧ ∀ label, label ∈ labels → ¬ substring_of label text).

(** *** Reading the call log of a polling iteration *)

Import DataAgent.

Definition is_diff (op : Op) : bool :=
  match op with OpDiff _ _ => true | _ => false end.

Definition is_detect (op : Op) : bool :=
  match op with OpProcessChange _ => true | _ => false end.

(** Appending to the history list and writing the history file. *)
Definition is_persist (op : Op) : bool :=
  match op with OpAppendHistory _ | OpSaveHistory => true | _ => false end.

(** Index of the first logged call that satisfies [p]. *)
Fixpoint first_index (p : Op → bool) (log : list Op) : option nat :=
  match log with
  | [] => None
  | op :: log' => if p op then Some 0%nat else S <$> first_index p log'
  end.

(** The first [p] call comes strictly before the first [q] call. *)
Definition before (p q : Op → bool) (log : list Op) : Prop :=
  ∃ i j, first_index p log = Some i ∧ first_index q log = Some j ∧ (i < j)%nat.

(** The state a monadic computation leaves, and the calls it logs. *)
Definition exec {A} (m : M A) (s : DataAgent.t) : DataAgent.t := state_of (m s).
Definition calls {A} (m : M A) (s : DataAgent.t) : list Op := log_of (m s).

(** The state an accepting iteration leaves. *)
Definition accepted_state (i : TickInput) (snapshot : Snapshot) (s : DataAgent.t)
  : DataAgent.t :=
  let p := grid_poller s in
  let p1 := GRIDPoller.mkPoller (GRIDPoller.p_series_id p) (GRIDPoller.poll_interval p)
              (GRIDPoller.running p) (GRIDPoller.last_snapshot p)
              (GRIDPoller.snapshot_history p ++ [snapshot]) in
  mkAgent
    (GRIDPoller.mkPoller (GRIDPoller.p_series_id p) (GRIDPoller.poll_interval p)
       (GRIDPoller.running p) (Some snapshot)
       (GRIDPoller.snapshot_history p ++ [snapshot]))
    (process_all
       (List.map (fun change => (ev_now i, change, snapshot))
                 (diff (GRIDPoller.last_snapshot p) snapshot))
       (tactical_logger s))
    (GRIDPoller._save_history p1 (write_ok i) (history_file s)).

(** Iterations of the real poller, each given by the remote answer, the
    two clock readings and whether the file write goes through. *)
Definition grid_inputs (l : list (option Datause.SeriesState * string * string * bool))
  : list TickInput :=
  List.map (fun '(fetched, now, ev_now, write_ok) => grid_input fetched now ev_now write_ok) l.

Definition history (s : DataAgent.t) : list Snapshot :=
  GRIDPoller.snapshot_history (grid_poller s).

(** What holds of every state the real poller's loop goes through. *)
Definition only_empty (s : DataAgent.t) : Prop :=
  Forall (fun snap => players snap = []) (history s) ∧
  ∀ entries, history_file s = Some entries →
             Forall (fun e => GRIDPoller.h_players e = []) entries.

(** Every snapshot kept in memory and every entry of the history file
    has at least one player. *)
Definition stored_players_nonempty (s : DataAgent.t) : Prop :=
  Forall (fun snap => players snap ≠ []) (history s) ∧
  ∀ entries, history_file s = Some entries →
             Forall (fun e => GRIDPoller.h_players e ≠ []) entries.

End Stmt.

Module Sample.
Import PyDict Schemas SnapshotDiffer Stmt.

Definition site_a : Position := mkPosition (Some 1%Q) (Some 2%Q) "R3C4" "B4" "B3" "NE".

Definition jett : Player :=
  mkPlayer "p1" "Jett" "TeamA" "attacker" "Jett" true "full" "heavy" (Some "Vandal") site_a.

Definition sova : Player :=
  mkPlayer "p2" "Sova" "TeamB" "defender" "Sova" true "damaged" "light" (Some "Sheriff")
           default_Position.

Definition both_alive : Snapshot :=
  mkSnapshot "2629390" "g1" "t0" [] [("p1", jett); ("p2", sova)].

Definition sova_dead : Snapshot :=
  mkSnapshot "2629390" "g1" "t1" [] [("p2", with_alive false sova); ("p1", jett)].

Definition all_dead : Snapshot :=
  mkSnapshot "2629390" "g1" "t2" []
             [("p2", with_alive false sova); ("p1", with_alive false jett)].

Definition live_state : Datause.SeriesState :=
  Datause.mkSeriesState "2629390"
    [ Datause.mkGameState "g1"
        [ Datause.mkTeamState "GameTeamStateValorant" "TeamA" "attacker"
            [ Datause.mkPlayerState "Jett" true (Some 100%Q) (Some 100%Q) (Some 50%Q) ] ] ].

(** An iteration of the real poller that gets an answer. *)
Definition live_tick : DataAgent.TickInput :=
  DataAgent.grid_input (Some live_state) "t0" "t0" true.

(** An iteration whose poller hands back a given snapshot. *)
Definition tick_returning (snapshot : Snapshot) : DataAgent.TickInput :=
  DataAgent.mkTickInput (fun _ => Some snapshot) "t1" true.

Definition fresh : DataAgent.t := DataAgent.init "2629390".

(** The agent after a first iteration that saw both players alive. *)
Definition after_first_poll : DataAgent.t :=
  Stmt.exec (DataAgent.tick (tick_returning both_alive)) fresh.

End Sample.

(** ** Further vocabulary *)

Module Stmt2.
Import PyDict Schemas SnapshotDiffer.

(** [l1] is an initial part of [l2] and [l2] has at most one more item. *)
Definition grown_by_at_most_one {A} (l1 l2 : list A) : Prop :=
  l2 = l1 ∨ ∃ x, l2 = l1 ++ [x].

(** Severity order of the health buckets. *)
Definition hp_rank (bucket : string) : nat :=
  if String.eqb bucket "critical" then 0
  else if String.eqb bucket "damaged" then 1
  else if String.eqb bucket "full" then 2
  else 3.

(** Order of the armor buckets. *)
Definition armor_rank (bucket : string) : nat :=
  if String.eqb bucket "none" then 0
  else if String.eqb bucket "light" then 1
  else if String.eqb bucket "heavy" then 2
  else 3.

End Stmt2.

(** ** Vocabulary for the poller *)

Module Stmt3.
Import PyDict Schemas Datause.

(** A team of the Valorant type with at least one player. *)
Definition valorant_team_with_player (t : TeamState) : bool :=
  String.eqb (typename t) "GameTeamStateValorant" &&
  match ts_players t with [] => false | _ => true end.

Definition has_valorant_player (g : GameState) : bool :=
  existsb valorant_team_with_player (g_teams g).

(** Number of players a game has in teams of the Valorant type. *)
Definition valorant_players (g : GameState) : nat :=
  sum_list (List.map (fun t => if String.eqb (typename t) "GameTeamStateValorant"
                               then length (ts_players t) else 0%nat)
                     (g_teams g)).

(** The remote answer of an iteration lets the poll succeed. *)
Definition poll_succeeds (x : option SeriesState * string * string * bool) : bool :=
  match x.1.1.1 with
  | None => false
  | Some state => existsb has_valorant_player (games state)
  end.

End Stmt3.

(** ** agents/VLM.py : detect_events and the frame queue *)

Module VLMFrames.
Import PyDict VLM.

(** The [events] dict of [detect_events]. *)
Definition event_flags (event : string) : dict bool :=
  [ ("player_killed_enemy", String.eqb event "KILL");
    ("player_died", String.eqb event "DEATH");
    ("round_ended", String.eqb event "ROUND_END");
    ("mid", String.eqb event "NO_EVENT") ].

(** [detect_events]: [image_frame] is the frame made from [image_obj]
    when one is given (cropping and resizing are left to the imaging
    library); otherwise the frame comes from the queue, without waiting.
    Returns the decoded JSON object and the queue left behind. *)
Definition detect_events {Frame : Type} (py : StrMethods) (image_frame : option Frame)
    (frame_queue : list Frame) (post : Frame → Z → PostOutcome)
  : dict bool * list Frame :=
  match image_frame with
  | Some frame => (event_flags (query_vlm py (post frame)), frame_queue)
  | None =>
      match frame_queue with
      | [] => ([("NO_EVENT", true)], [])
      | frame :: rest => (event_flags (query_vlm py (post frame)), rest)
      end
  end.

(** *** The capture thread and its readers, one queue operation at a time

    [frame_queue] is a [Queue(maxsize=1)]; each of its methods is atomic.
    The producer is at one of the queue calls of its loop body, holding the
    frame it has just processed. *)
Inductive ProducerAt (Frame : Type) :=
| Capturing                       (* grabbing and resizing; no frame yet *)
| AtFull (frame : Frame)          (* about to test [frame_queue.full()] *)
| AtGetNowait (frame : Frame)     (* about to call [get_nowait()] *)
| AtPut (frame : Frame).          (* about to call [put(processed_frame)] *)
Arguments Capturing {Frame}.
Arguments AtFull {Frame}.
Arguments AtGetNowait {Frame}.
Arguments AtPut {Frame}.

Record Threads (Frame : Type) := mkThreads {
  producer : ProducerAt Frame;
  frame_queue : list Frame;        (* oldest first *)
  taken : list Frame               (* frames readers have got, oldest first *)
}.
Arguments mkThreads {Frame}.
Arguments producer {Frame}.
Arguments frame_queue {Frame}.
Arguments taken {Frame}.

Definition maxsize : nat := 1.

Inductive step {Frame : Type} : Threads Frame → Threads Frame → Prop :=
| step_capture q t frame :
    step (mkThreads Capturing q t) (mkThreads (AtFull frame) q t)
| step_full q t frame :
    (maxsize ≤ length q)%nat →
    step (mkThreads (AtFull frame) q t) (mkThreads (AtGetNowait frame) q t)
| step_not_full q t frame :
    (length q < maxsize)%nat →
    step (mkThreads (AtFull frame) q t) (mkThreads (AtPut frame) q t)
| step_get_nowait old q t frame :
    step (mkThreads (AtGetNowait frame) (old :: q) t) (mkThreads (AtPut frame) q t)
| step_get_nowait_empty t frame :           (* [Empty] is raised and passed over *)
    step (mkThreads (AtGetNowait frame) [] t) (mkThreads (AtPut frame) [] t)
| step_put q t frame :                      (* [put] waits while the queue is full *)
    (length q < maxsize)%nat →
    step (mkThreads (AtPut frame) q t) (mkThreads Capturing (q ++ [frame]) t)
| step_reader_get p old q t :               (* [get] or [get_nowait] of a reader *)
    step (mkThreads p (old :: q) t) (mkThreads p q (t ++ [old])).

Inductive reachable {Frame : Type} : Threads Frame → Prop :=
| reachable_start : reachable (mkThreads Capturing [] [])
| reachable_step s s' : reachable s → step s s' → reachable s'.

End VLMFrames.

(** ** agents/data_agent.py : the read side *)

Module DataAgentReads.
Import PyDict Schemas VLM DataAgent.

(** [str.lower] on ASCII text *)
Definition lower_ascii (c : ascii) : ascii :=
  let n := N_of_ascii c in
  if ((65 <=? n) && (n <=? 90))%N then ascii_of_N (n + 32) else c.

Fixpoint lower (s : string) : string :=
  match s with
  | EmptyString => EmptyString
  | String c s' => String (lower_ascii c) (lower s')
  end.

Definition newline : string := String (ascii_of_N 10) EmptyString.

(** The slice [l[start:]] for an integer [start] *)
Definition slice_from {A} (start : Z) (l : list A) : list A :=
  let n := Z.of_nat (length l) in
  let i := if (start <? 0)%Z then Z.max 0 (start + n) else Z.min start n in
  drop (Z.to_nat i) l.

(** [get_latest_events] *)
Definition get_latest_events (self : DataAgent.t) : list TacticalEvent :=
  match TacticalEventLogger.event_log (tactical_logger self) with
  | [] => []
  | event_log => slice_from (-5) event_log
  end.

(** [get_snapshot_history(limit)] *)
Definition get_snapshot_history (self : DataAgent.t) (limit : Z) : list Snapshot :=
  match GRIDPoller.snapshot_history (grid_poller self) with
  | [] => []
  | snapshot_history => slice_from (- limit) snapshot_history
  end.

(** [get_snapshot_history_from_file]: the decoded file, or the empty list
    when the file is missing or cannot be read. *)
Definition get_snapshot_history_from_file (self : DataAgent.t)
  : list GRIDPoller.HistoryEntry :=
  match history_file self with
  | Some entries => entries
  | None => []
  end.

(** A value inside an f-string: [None] prints as the word None. *)
Definition fmt_opt (w : option string) : string :=
  match w with Some s => s | None => "None" end.

Definition alive_players (snapshot : Snapshot) : list Player :=
  List.filter alive (values (players snapshot)).

Definition fetch_data (self : DataAgent.t) (query : string) : string :=
  let query_lower := lower query in
  let last := GRIDPoller.last_snapshot (grid_poller self) in
  if contains "tactical" query_lower || contains "conclusion" query_lower then
    match TacticalEventLogger.get_tactical_conclusions (tactical_logger self) with
    | [] => "No significant tactical events logged yet."
    | conclusions => String.concat newline conclusions
    end
  else if contains "stats" query_lower || contains "performance" query_lower
          || contains "snapshot" query_lower then
    match last with
    | Some snapshot =>
        let summary :=
          "GRID Snapshot (Game: " +:+ game_id snapshot +:+ "): "
          +:+ pretty (length (alive_players snapshot)) +:+ "/"
          +:+ pretty (length (players snapshot)) +:+ " players alive. " in
        match alive_players snapshot with
        | top_player :: _ =>
            summary +:+ "Example: " +:+ name top_player +:+ " is at "
            +:+ region_rc (position top_player) +:+ " with "
            +:+ fmt_opt (weapon top_player) +:+ "."
        | [] => summary
        end
    | None => "No live GRID data available for stats."
    end
  else if contains "round" query_lower then
    match last with
    | Some snapshot =>
        "Round Status: " +:+ pretty (length (alive_players snapshot))
        +:+ " players alive. Game ID: " +:+ game_id snapshot +:+ "."
    | None => "No live GRID data available for round status."
    end
  else
    "Current state: " +:+ query +:+ ". VLM and GRID are analyzing the game. "
    +:+ match last with
        | Some _ => "GRID active for " +:+ GRIDPoller.p_series_id (grid_poller self) +:+ "."
        | None => "GRID waiting for data."
        end.

End DataAgentReads.

(** ** agents/brain.py *)

Module Brain.
Import PyDict Schemas VLM DataAgent DataAgentReads.

Definition DEFAULT_API_KEY : string := "gDVqIdMead2zTW1DKehu8PicvVXStT2xtmbYHK7b".
Definition DEFAULT_SERIES_ID : string := "2629390".

(** [a or b] on strings *)
Definition py_or (a b : string) : string := if String.eqb a "" then b else a.

(** [__init__], up to the construction of the agents: the resolved key
    and series id, or the message of the [ValueError].  [env_key] and
    [env_series] are what [os.getenv] gives (["" ] when unset). *)
Definition resolve_credentials (api_key series_id env_key env_series : string)
  : string + string * string :=
  let resolved_api_key := strip (py_or (py_or api_key DEFAULT_API_KEY) env_key) in
  let resolved_series_id := strip (py_or (py_or series_id DEFAULT_SERIES_ID) env_series) in
  if String.eqb resolved_api_key ""
  then inl "Missing GRID API key (pass api_key or set GRID_API_KEY)."
  else if String.eqb resolved_series_id ""
  then inl "Missing GRID series id (pass series_id or set GRID_SERIES_ID)."
  else inr (resolved_api_key, resolved_series_id).

(** The series-id check that [DataAgent.__init__] and
    [GRIDPoller.__init__] both make. *)
Definition data_agent_new (series_id : string) : string + DataAgent.t :=
  if String.eqb series_id ""
  then inl "The 'series_id' must be provided and cannot be None."
  else inr (DataAgent.init series_id).

(** [handle_event]: [ask] is the post-game agent's answer to a prompt. *)
Definition handle_event (ask : string → string) (data_agent : DataAgent.t)
    (event_type : string) (metadata : option (dict string)) : option string :=
  if String.eqb event_type "round_ended" then
    Some (ask ("The round has ended. Provide a brief, constructive feedback about the game performance "
               +:+ "and suggest improvements for the next round."))
  else if String.eqb event_type "player_killed_enemy" || String.eqb event_type "PLAYER_KILLED" then
    let stats := fetch_data data_agent "current performance snapshot" in
    let tactical := fetch_data data_agent "tactical conclusion" in
    Some ("Good job on that kill! " +:+ tactical +:+ " Here is a quick snapshot: " +:+ stats)
  else if String.eqb event_type "player_died" || String.eqb event_type "PLAYER_DIED" then
    let stats := fetch_data data_agent "round end statistics" in
    let tactical := fetch_data data_agent "tactical conclusion" in
    Some ("Tough break. " +:+ tactical +:+ " Here are your stats for the round: " +:+ stats)
  else if String.eqb event_type "FIRST_DEATH" then
    let pos := match metadata with
               | Some (_ :: _ as m) => fmt_opt (get m "position")
               | _ => "Unknown"
               end in
    Some ("Warning: First death of the round. Current position context: " +:+ pos +:+ ". "
          +:+ "IGL should consider rotation.")
  else if String.eqb event_type "WEAPON_DISADVANTAGE_ENGAGEMENT" then
    Some "Tactical Alert: Engagement initiated with weapon disadvantage. Play for trades."
  else None.

End Brain.

(** ** main.py : the event watch of the main loop *)

Module Main.
Import PyDict Schemas VLM DataAgent DataAgentReads Brain.

(** The VLM part: the first key of the decoded answer whose value is
    true is handed to [handle_event]; a non-empty response is spoken. *)
Definition vlm_pass (ask : string → string) (data_agent : DataAgent.t)
    (events : dict bool) : option string :=
  match List.find (fun kv => kv.2) events with
  | Some (event_type, _) =>
      match handle_event ask data_agent event_type None with
      | Some response => if String.eqb response "" then None else Some response
      | None => None
      end
  | None => None
  end.

(** [getattr(ge, "event_type", None) or getattr(ge, "type", None) or "UNKNOWN"] *)
Definition event_type_of (ge : TacticalEvent) : string :=
  py_or (event_type ge) "UNKNOWN".

(** The GRID part: each of the latest events is handled, then the whole
    log is cleared.  Returns what [handle_event] gave per event and the
    agent left behind. *)
Definition grid_pass (ask : string → string) (data_agent : DataAgent.t)
  : list (option string) * DataAgent.t :=
  match get_latest_events data_agent with
  | [] => ([], data_agent)
  | latest =>
      (List.map (fun ge => handle_event ask data_agent (event_type_of ge) (Some (metadata ge)))
                latest,
       mkAgent (grid_poller data_agent)
               (TacticalEventLogger.mkLogger
                  [] (TacticalEventLogger.conclusions (tactical_logger data_agent)))
               (history_file data_agent))
  end.

End Main.

(** ** Vocabulary for the consumers *)

Module Stmt4.
Import PyDict Schemas DataAgent.

(** No tactical event or conclusion yet, and no player in the previous
    snapshot. *)
Definition nothing_seen (s : DataAgent.t) : Prop :=
  tactical_logger s = TacticalEventLogger.init ∧
  ∀ snapshot, GRIDPoller.last_snapshot (grid_poller s) = Some snapshot →
              players snapshot = [].

End Stmt4.

(** ** grid_pipeline/datause.py : positions and regions *)

Module Geometry.
Import PyDict Datause.

(** [max(a, b)] and [min(a, b)]: the first argument unless the second is
    strictly better. *)
Definition py_max (a b : Q) : Q := if Qgtb b a then b else a.
Definition py_min (a b : Q) : Q := if Qgtb a b then b else a.

(** [int(q)]: truncation towards zero *)
Definition int_of (q : Q) : Z := Z.quot (Qnum q) (Zpos (Qden q)).

Definition clamp01 (v : Q) : Q := py_min (py_max v 0) (999999 # 1000000).

Definition bin_index (v vmin vmax : Q) (n : Z) : Z :=
  let r := if Qgtb (Qabs (vmax - vmin)) (1 # 1000000000000)
           then ((v - vmin) / (vmax - vmin))%Q else 0%Q in
  let r := clamp01 r in
  int_of (r * inject_Z n).

(** [min(xs)] and [max(xs)] of a non-empty list given by head and tail *)
Definition list_min (x0 : Q) (xs : list Q) : Q := fold_left py_min xs x0.
Definition list_max (x0 : Q) (xs : list Q) : Q := fold_left py_max xs x0.

(** A team as [compute_game_bounds] reads it: its [__typename] and, per
    player, the coordinates after [to_float]. *)
Definition TeamPositions : Type := string * list (option Q * option Q).

Definition both_coordinates (pos : option Q * option Q) : option (Q * Q) :=
  match pos with
  | (Some x, Some y) => Some (x, y)
  | _ => None
  end.

(** The [(x, y)] pairs the two loops append to [xs] and [ys]. *)
Definition collected (teams : list TeamPositions) : list (Q * Q) :=
  flat_map (fun t : TeamPositions =>
              if String.eqb t.1 "GameTeamStateValorant"
              then omap both_coordinates t.2 else [])
           teams.

Definition widen (lo hi : Q) : Q :=
  if Qgtb (1 # 1000000) (Qabs (hi - lo)) then (lo + 1)%Q else hi.

Definition compute_game_bounds (teams : list TeamPositions) : option (Q * Q * Q * Q) :=
  match collected teams with
  | [] => None
  | (x0, y0) :: rest =>
      let minx := list_min x0 rest.*1 in
      let maxx := list_max x0 rest.*1 in
      let miny := list_min y0 rest.*2 in
      let maxy := list_max y0 rest.*2 in
      Some (minx, widen minx maxx, miny, widen miny maxy)
  end.

Definition unknown_labels : dict string :=
  [ ("region_rc", "Unknown"); ("x_band", "Unknown"); ("y_band", "Unknown");
    ("pos_quadrant", "Unknown") ].

Definition region_labels (x y : option Q) (bounds : option (Q * Q * Q * Q)) (n : Z)
  : dict string :=
  match x, y, bounds with
  | Some x, Some y, Some (minx, maxx, miny, maxy) =>
      let cx := bin_index x minx maxx n in
      let cy := bin_index y miny maxy n in
      let mx := ((minx + maxx) / 2)%Q in
      let my := ((miny + maxy) / 2)%Q in
      let east := Qle_bool mx x in
      let north := Qle_bool my y in
      let quad := if north && east then "NE"
                  else if north && negb east then "NW"
                  else if negb north && east then "SE" else "SW" in
      [ ("region_rc", "R" +:+ pretty (cy + 1)%Z +:+ "C" +:+ pretty (cx + 1)%Z);
        ("x_band", "B" +:+ pretty (cx + 1)%Z);
        ("y_band", "B" +:+ pretty (cy + 1)%Z);
        ("pos_quadrant", quad) ]
  | _, _, _ => unknown_labels
  end.

End Geometry.

(** ** grid_pipeline/datause.py : the weapon in hand *)

Module Inventory.

(** An entry of the inventory's [items] list that is a dict: [it_name] is
    the [name] when it is a string, [equipped] and [quantity] the values
    after [int(... or 0)], 0 when that fails. *)
Record Item := mkItem {
  it_name : option string;
  equipped : Z;
  quantity : Z
}.

(** [isinstance(name, str) and name.strip()]: the stripped name when it
    is usable. *)
Definition usable_name (it : Item) : option string :=
  match it_name it with
  | Some name => if String.eqb (VLM.strip name) "" then None else Some (VLM.strip name)
  | None => None
  end.

(** [cand > best] on [(equipped, quantity, name)] tuples *)
Definition tuple_gt (a b : Z * Z * string) : bool :=
  let '(e1, q1, n1) := a in
  let '(e2, q2, n2) := b in
  if (e2 <? e1)%Z then true
  else if (e1 <? e2)%Z then false
  else if (q2 <? q1)%Z then true
  else if (q1 <? q2)%Z then false
  else String.ltb n2 n1.
Arguments tuple_gt : simpl never.

(** One turn of the loop over the items; an entry that is not a dict is
    [None]. *)
Definition scan (acc : option (Z * Z * string) * option string) (entry : option Item)
  : option (Z * Z * string) * option string :=
  let '(best, fallback) := acc in
  match entry with
  | None => acc
  | Some it =>
      match usable_name it with
      | None => acc
      | Some name =>
          let fallback := match fallback with Some f => Some f | None => Some name end in
          if (0 <? equipped it)%Z then
            let cand := (equipped it, quantity it, name) in
            match best with
            | None => (Some cand, fallback)
            | Some b => if tuple_gt cand b then (Some cand, fallback) else (Some b, fallback)
            end
          else (best, fallback)
      end
  end.

(** [inv] is [None] when the inventory is not a dict or its [items] are
    not a list. *)
Definition extract_weapon_from_inventory (inv : option (list (option Item)))
  : option string :=
  match inv with
  | None => None
  | Some [] => None
  | Some items =>
      match fold_left scan items (None, None) with
      | (Some best, _) => Some best.2
      | (None, fallback) => fallback
      end
  end.

End Inventory.

(** ** Vocabulary for the inventory *)

Module Stmt5.
Import Inventory.

(** The usable names of the items, in order. *)
Definition usable_names (items : list (option Item)) : list string :=
  omap (fun entry => entry ≫= usable_name) items.

(** The named items that are equipped. *)
Definition equipped_items (items : list (option Item)) : list Item :=
  omap (fun entry : option Item =>
          match entry with
          | Some it =>
              match usable_name it with
              | Some _ => if (0 <? equipped it)%Z then Some it else None
              | None => None
              end
          | None => None
          end) items.

End Stmt5.

(** * Properties *)

Import PyDict Schemas.

(** ** Dictionaries *)

Section dict_facts.
Context {V : Type}.
Implicit Types (d : dict V) (k : string) (v : V).

Lemma get_cons_eq d k v : get ((k, v) :: d) k = Some v.
Proof. simpl. by rewrite String.eqb_refl. Qed.

Lemma get_cons_ne d k k' v : k' ≠ k → get ((k', v) :: d) k = get d k.
Proof. intros Hne. simpl. by apply String.eqb_neq in Hne as ->. Qed.

Lemma get_None_notin d k : k ∉ keys d → get d k = None.
Proof.
  unfold keys. induction d as [|[k' v'] d IH]; simpl; [done|].
  intros Hnotin. apply not_elem_of_cons in Hnotin as [Hne Hd].
  apply not_eq_sym, String.eqb_neq in Hne. rewrite Hne. by apply IH.
Qed.

(** In a dict every stored item is the one its key reads. *)
Lemma get_item d k v : dict_wf d → (k, v) ∈ d → get d k = Some v.
Proof.
  unfold dict_wf, keys. induction d as [|[k' v'] d IH]; simpl.
  - intros _ Hin. by apply elem_of_nil in Hin.
  - intros Hnd Hin. apply NoDup_cons in Hnd as [Hk' Hnd].
    apply elem_of_cons in Hin as [Heq|Hin].
    + injection Heq as -> ->. by rewrite String.eqb_refl.
    + destruct (String.eqb_spec k' k) as [->|Hne]; [|by apply IH].
      exfalso. apply Hk'. apply list_elem_of_fmap. by exists (k, v).
Qed.

End dict_facts.

(** ** SnapshotDiffer.diff *)

Section differ.
Import SnapshotDiffer Stmt Sample.

Lemma weapon_neq_irrefl w : weapon_neq w w = false.
Proof. destruct w as [s|]; simpl; [|done]. by rewrite String.eqb_refl. Qed.

(** A player found unchanged yields no change event. *)
Lemma diff_player_same old_players pid p :
  get old_players pid = Some p → diff_player old_players (pid, p) = [].
Proof.
  intros Hget. unfold diff_player. rewrite Hget, weapon_neq_irrefl.
  by destruct (alive p).
Qed.

(** A player found alive before and dead now, nothing else changed,
    yields the death event alone. *)
Lemma diff_player_died old_players pid p :
  get old_players pid = Some p → alive p = true →
  diff_player old_players (pid, with_alive false p) = [player_died (with_alive false p)].
Proof.
  intros Hget Halive. unfold diff_player. rewrite Hget, Halive. simpl.
  by rewrite weapon_neq_irrefl.
Qed.

(** The loop over a part [l] of the new items: nothing unless the victim
    is among them. *)
Lemma diff_loop old_players victim p (l : dict Player) :
  get old_players victim = Some p → alive p = true →
  NoDup (keys l) →
  (∀ pid q, (pid, q) ∈ l → pid ≠ victim → get old_players pid = Some q) →
  (∀ q, (victim, q) ∈ l → q = with_alive false p) →
  flat_map (diff_player old_players) l =
    if bool_decide (victim ∈ keys l) then [player_died (with_alive false p)] else [].
Proof.
  intros Hget Halive. unfold keys.
  induction l as [|[pid q] l IH]; intros Hnd Hother Hvictim; [done|].
  rewrite fmap_cons in Hnd |- *. cbn [flat_map fst] in *.
  apply NoDup_cons in Hnd as [Hpid Hnd].
  rewrite IH; [|done|intros; apply Hother; set_solver|intros; apply Hvictim; set_solver].
  destruct (decide (pid = victim)) as [->|Hne].
  - rewrite (Hvictim q) by set_solver.
    rewrite diff_player_died by done.
    rewrite (bool_decide_eq_false_2 (victim ∈ l.*1)) by done.
    rewrite bool_decide_eq_true_2; [done|]. apply elem_of_cons. by left.
  - rewrite diff_player_same by (apply Hother; set_solver). simpl.
    rewrite (bool_decide_ext (victim ∈ pid :: l.*1) (victim ∈ l.*1)); [done|].
    rewrite elem_of_cons. intuition congruence.
Qed.



End differ.

(** ** TacticalEventLogger *)

Section logger.
Import SnapshotDiffer TacticalEventLogger Stmt Sample.

Lemma str_in_list_spec text l : str_in_list text l = true ↔ text ∈ l.
Proof.
  unfold str_in_list. rewrite existsb_exists. split.
  - intros (s & Hin & Heq). apply String.eqb_eq in Heq as ->.
    by apply list_elem_of_In.
  - intros Hin. exists text. split; [by apply list_elem_of_In|].
    apply String.eqb_refl.
Qed.

Lemma add_conclusion_event_log text self :
  event_log (_add_conclusion text self) = event_log self.
Proof. unfold _add_conclusion. by destruct (str_in_list _ _). Qed.

Lemma add_conclusion_NoDup text self :
  NoDup (conclusions self) → NoDup (conclusions (_add_conclusion text self)).
Proof.
  intros Hnd. unfold _add_conclusion.
  destruct (str_in_list text (conclusions self)) eqn:Hin; [done|]. simpl.
  apply NoDup_app. split; [done|]. split; [|apply NoDup_singleton].
  intros s Hs ->%list_elem_of_singleton.
  apply str_in_list_spec in Hs. congruence.
Qed.

Lemma process_change_NoDup now change snapshot self :
  NoDup (conclusions self) →
  NoDup (conclusions (process_change now change snapshot self)).
Proof.
  intros Hnd. unfold process_change.
  destruct (String.eqb (c_type change) "PLAYER_DIED").
  - destruct (Z.eqb _ _); [|done]. by apply add_conclusion_NoDup.
  - destruct (String.eqb (c_type change) "WEAPON_CHANGE"); [|done].
    destruct (premium _); [|done]. by apply add_conclusion_NoDup.
Qed.

Lemma process_all_NoDup calls self :
  NoDup (conclusions self) → NoDup (conclusions (process_all calls self)).
Proof.
  unfold process_all. revert self.
  induction calls as [|[[now change] snapshot] calls IH]; intros self Hnd; [done|].
  simpl. apply IH. by apply process_change_NoDup.
Qed.

(** C8. Whatever change events a logger processes, in whatever order
    and however often repeated, its conclusions list holds no string
    twice. *)
Theorem conclusions_never_duplicated (calls : list (string * Change * Snapshot)) :
  NoDup (conclusions (process_all calls TacticalEventLogger.init)).
Proof. apply process_all_NoDup. simpl. apply NoDup_nil_2. Qed.

(** C2. For a [PLAYER_DIED] change, [process_change] appends one
    [FIRST_DEATH] event, with metadata player, team, position and side,
    exactly when the snapshot's alive count is the number of players
    minus one; otherwise, and so at total minus two, the event log is
    left as it was. *)
Theorem process_change_first_death now change snapshot self :
  c_type change = "PLAYER_DIED" →
  let self' := process_change now change snapshot self in
  let player := c_player change in
  ((∃ ev, event_log self' = event_log self ++ [ev])
     ↔ alive_count snapshot = (total_players snapshot - 1)%Z) ∧
  (alive_count snapshot = (total_players snapshot - 1)%Z →
     ∃ ev, event_log self' = event_log self ++ [ev] ∧
           event_type ev = "FIRST_DEATH" ∧
           metadata ev =
             [ ("player", name player);
               ("team", team_name player);
               ("position",
                region_rc (position player) +:+ " (" +:+ quadrant (position player) +:+ ")");
               ("side", side player) ]) ∧
  (alive_count snapshot ≠ (total_players snapshot - 1)%Z →
     event_log self' = event_log self) ∧
  (alive_count snapshot = (total_players snapshot - 2)%Z →
     event_log self' = event_log self).
Proof.
  intros Htype self' player. subst self'. unfold process_change.
  rewrite Htype. simpl String.eqb. cbv iota.
  destruct (Z.eqb_spec (alive_count snapshot) (total_players snapshot - 1)) as [Heq|Hne].
  - rewrite add_conclusion_event_log. simpl.
    split; [split; [done|eauto]|].
    split; [intros _; by eexists|].
    split; [done|]. lia.
  - split.
    { split; [|done]. intros [ev Hev].
      apply (f_equal length) in Hev. rewrite length_app in Hev. simpl in Hev. lia. }
    split; [done|]. by split.
Qed.

Lemma process_change_first_death_witness :
  c_type (player_died (with_alive false sova)) = "PLAYER_DIED" ∧
  alive_count sova_dead = (total_players sova_dead - 1)%Z ∧
  ∃ ev, event_log (process_change "t1" (player_died (with_alive false sova))
                                  sova_dead TacticalEventLogger.init) = [ev] ∧
        event_type ev = "FIRST_DEATH".
Proof.
  split; [reflexivity|]. split; [reflexivity|].
  destruct (process_change_first_death "t1" (player_died (with_alive false sova))
              sova_dead TacticalEventLogger.init eq_refl) as (_ & Hone & _).
  destruct (Hone eq_refl) as (ev & Hlog & Hty & _).
  exists ev. split; [exact Hlog | exact Hty].
Defined.

(** With both players dead the alive count is the total minus two, and
    nothing is logged. *)
Example process_change_second_death :
  alive_count all_dead = (total_players all_dead - 2)%Z ∧
  process_change "t2" (player_died (with_alive false jett)) all_dead
                 TacticalEventLogger.init = TacticalEventLogger.init.
Proof. split; reflexivity. Qed.

End logger.

(** ** hp_bucket *)

Section buckets.
Import Datause.

Lemma Qgtb_spec (a b : Q) : Qgtb a b = true ↔ (b < a)%Q.
Proof.
  unfold Qgtb. rewrite negb_true_iff, <- not_true_iff_false, Qle_bool_iff.
  split; [apply Qnot_le_lt | apply Qlt_not_le].
Qed.

Lemma Qgtb_false (a b : Q) : Qgtb a b = false ↔ (a <= b)%Q.
Proof. unfold Qgtb. by rewrite negb_false_iff, Qle_bool_iff. Qed.



End buckets.

(** ** VLM.query_vlm *)

Section query.
Import VLM Stmt.

Lemma append_cons c s t : String c s +:+ t = String c (s +:+ t).
Proof. reflexivity. Qed.

Lemma prefix_spec needle hay :
  String.prefix needle hay = true ↔ ∃ after, hay = needle +:+ after.
Proof.
  revert hay. induction needle as [|c needle IH]; intros [|c' hay]; simpl.
  - split; [by exists ""|done].
  - split; [by exists (String c' hay)|done].
  - split; [done|]. by intros [after Hafter].
  - destruct (ascii_dec c c') as [->|Hne].
    + rewrite IH. split; intros [after Hafter]; exists after;
        rewrite append_cons in *; congruence.
    + split; [done|]. intros [after Hafter]. rewrite append_cons in Hafter. congruence.
Qed.

(** [contains] decides occurrence as a substring. *)
Lemma contains_spec needle hay :
  contains needle hay = true ↔ substring_of needle hay.
Proof.
  unfold substring_of. split.
  - induction hay as [|c hay IH]; cbn [contains]; rewrite orb_true_iff.
    + intros [Hp|]; [|done]. apply prefix_spec in Hp as [after Hafter].
      by exists "", after.
    + intros [Hp|Hc].
      * apply prefix_spec in Hp as [after Hafter]. by exists "", after.
      * destruct (IH Hc) as (before & after & ->).
        by exists (String c before), after.
  - intros (before & after & ->).
    induction before as [|c before IH].
    + assert (String.prefix needle (needle +:+ after) = true) as Hp
        by (apply prefix_spec; by exists after).
      change ("" +:+ needle +:+ after) with (needle +:+ after).
      destruct (needle +:+ after); cbn [contains]; by rewrite Hp.
    + rewrite append_cons. cbn [contains]. rewrite IH. apply orb_true_r.
Qed.

Lemma contains_false needle hay :
  contains needle hay = false ↔ ¬ substring_of needle hay.
Proof. rewrite <- contains_spec. by destruct (contains needle hay). Qed.

(** The label filter returns the first listed label that occurs. *)
Lemma filter_label_first labels text :
  first_label_in labels text (filter_label labels text).
Proof.
  induction labels as [|label labels IH]; simpl.
  - right. split; [done|]. intros label Hin. by apply elem_of_nil in Hin.
  - destruct (contains label text) eqn:Hc.
    + left. exists [], labels. split; [done|].
      split; [by apply contains_spec|]. intros l Hin. by apply elem_of_nil in Hin.
    + apply contains_false in Hc.
      destruct IH as [(earlier & later & Hlabels & Hsub & Hnone)|[Hres Hnone]].
      * left. exists (label :: earlier), later.
        split; [simpl; by f_equal|]. split; [done|].
        intros l [->|Hin]%elem_of_cons; [done|by apply Hnone].
      * right. split; [done|].
        intros l [->|Hin]%elem_of_cons; [done|by apply Hnone].
Qed.

Lemma default_reply (py : StrMethods) :
  py_upper py (py_strip py "NO_EVENT") = "NO_EVENT".
Proof.
  rewrite py_strip_ascii by reflexivity.
  change (strip "NO_EVENT") with "NO_EVENT".
  by rewrite py_upper_ascii by reflexivity.
Qed.

(** C7. [query_vlm] always returns a string.  For every reply text it is
    the first of KILL, DEATH, ROUND_END, NO_EVENT, in that order, that
    occurs in the text as Python strips and upper-cases it, and NO_EVENT
    when none occurs or the reply has no text field; for a failed or
    timed-out request (or any other exception) it is a sentinel starting
    with ERROR.  The request is made with a timeout of 5 seconds. *)
Theorem query_vlm_result (py : StrMethods) (post : Z → PostOutcome) :
  REQUEST_TIMEOUT = 5%Z ∧
  match post 5%Z with
  | Json (Text s) =>
      first_label_in ["KILL"; "DEATH"; "ROUND_END"; "NO_EVENT"]
                     (py_upper py (py_strip py s)) (query_vlm py post)
  | Json Absent => query_vlm py post = "NO_EVENT"
  | RequestException e | OtherException e | Json (NotText e) =>
      query_vlm py post = "ERROR: " +:+ e ∧
      String.prefix "ERROR" (query_vlm py post) = true
  end.
Proof.
  split; [done|]. unfold query_vlm, REQUEST_TIMEOUT.
  destruct (post 5%Z) as [e|e|[|s|e]]; try done.
  - by rewrite default_reply.
  - apply filter_label_first.
Qed.

(** The filter goes by the order of the label list, not by position in
    the text. *)
Example query_vlm_list_order :
  query_vlm ascii_text (fun _ => Json (Text " no_event, then a kill ")) = "KILL".
Proof. reflexivity. Qed.

Example query_vlm_unmatched :
  query_vlm ascii_text (fun _ => Json (Text "nothing to see")) = "NO_EVENT".
Proof. reflexivity. Qed.

Example query_vlm_timeout py :
  query_vlm py (fun _ => RequestException "Read timed out.") = "ERROR: Read timed out.".
Proof. reflexivity. Qed.

(** A reply outside ASCII: where upper-casing turns the dotless i into
    an I, the reply is classified as a kill. *)
Example query_vlm_dotless_i py :
  py_upper py (py_strip py "kıll") = "KILL" →
  query_vlm py (fun _ => Json (Text "kıll")) = "KILL".
Proof. intros Hupper. unfold query_vlm. simpl. by rewrite Hupper. Qed.

End query.

(** ** VLM.run: debouncing *)

Section debounce.
Import VLM Stmt.

Lemma run_app self l1 l2 :
  run self (l1 ++ l2) =
    let '(self1, outs1) := run self l1 in
    let '(self2, outs2) := run self1 l2 in
    (self2, outs1 ++ outs2).
Proof.
  revert self. induction l1 as [|[time event] l1 IH]; intros self; simpl.
  - by destruct (run self l2).
  - destruct (report self time event) as [self1 out].
    rewrite IH. destruct (run self1 l1) as [self2 outs1].
    by destruct (run self2 l2).
Qed.

Lemma run_length self results : length (run self results).2 = length results.
Proof.
  revert self. induction results as [|[time event] results IH]; intros self; [done|].
  simpl. destruct (report self time event) as [self1 out].
  specialize (IH self1). destruct (run self1 results). simpl in *. by rewrite IH.
Qed.

(** One report touches the debounce table at most at the reported
    label, and only to record a detection. *)
Lemma report_lookup self time event label :
  let '(self1, out) := report self time event in
  last_event_time self1 !! label =
    match last_event_time self !! label, out with
    | Some last, Some _ => Some (if String.eqb event label then time else last)
    | old, _ => old
    end.
Proof.
  unfold report.
  destruct (last_event_time self !! event) as [last|] eqn:Hev.
  - destruct (Datause.Qgtb _ _); [|by destruct (_ !! label)]. simpl.
    destruct (String.eqb_spec event label) as [->|Hne].
    + by rewrite lookup_insert_eq, Hev.
    + rewrite lookup_insert_ne by done. by destruct (_ !! label).
  - destruct (String.eqb event "NO_EVENT"); [|destruct (contains "ERROR" event)];
      destruct (last_event_time self !! label) eqn:Hl; try done;
      by destruct (String.eqb_spec event label) as [->|Hne]; [congruence|].
Qed.

(** The debounce table holds, for each label it tracks, the time of the
    last detection printed so far, or the initial value. *)
Lemma run_lookup self results label last0 :
  last_event_time self !! label = Some last0 →
  let '(self', outs) := run self results in
  last_event_time self' !! label =
    Some (default last0 (last_surfaced label results outs)).
Proof.
  revert self last0.
  induction results as [|[time event] results IH]; intros self last0 Hl; [done|].
  simpl. pose proof (report_lookup self time event label) as Hrep.
  destruct (report self time event) as [self1 out]. rewrite Hl in Hrep.
  assert (∃ last1, last_event_time self1 !! label = Some last1 ∧
            last1 = match out with
                    | Some _ => if String.eqb event label then time else last0
                    | None => last0
                    end) as (last1 & Hl1 & Hlast1).
  { destruct out; eauto. }
  specialize (IH self1 last1 Hl1).
  destruct (run self1 results) as [self2 outs]. rewrite IH. f_equal.
  simpl. destruct (last_surfaced label results outs); [done|].
  subst last1. destruct out; [|done]. by destruct (String.eqb event label).
Qed.

Lemma run_lookup_None self results label :
  last_event_time self !! label = None →
  last_event_time (run self results).1 !! label = None.
Proof.
  revert self. induction results as [|[time event] results IH]; intros self Hl; [done|].
  simpl. pose proof (report_lookup self time event label) as Hrep.
  destruct (report self time event) as [self1 out]. rewrite Hl in Hrep.
  specialize (IH self1 Hrep). by destruct (run self1 results).
Qed.

Lemma init_lookup label :
  last_event_time VLM.init !! label = if actionable label then Some 0%Q else None.
Proof.
  unfold VLM.init, actionable. simpl.
  destruct (String.eqb_spec label "KILL") as [->|Hk]; [done|].
  rewrite lookup_insert_ne by done.
  destruct (String.eqb_spec label "DEATH") as [->|Hd]; [done|].
  rewrite lookup_insert_ne by done.
  destruct (String.eqb_spec label "ROUND_END") as [->|Hr]; [done|].
  by rewrite lookup_insert_ne by done.
Qed.

(** C6. In any run of the classifier loop, a KILL, DEATH or ROUND_END
    result read at clock time [time] is printed exactly when more than
    the cooldown of 2 seconds separates it from the last printed result
    of the same label, and always when that label has not been printed
    before; NO_EVENT results and error sentinels are always printed.
    Clock readings are seconds since the epoch, hence above the
    cooldown. *)
Theorem debounce_policy earlier time event later :
  (EVENT_COOLDOWN < time)%Q →
  let outs := (run VLM.init (earlier ++ (time, event) :: later)).2 in
  let outs_earlier := (run VLM.init earlier).2 in
  let printed := ∃ line, outs !! length earlier = Some (Some line) in
  (actionable event = true →
     (printed ↔
        match last_surfaced event earlier outs_earlier with
        | Some last => (EVENT_COOLDOWN < time - last)%Q
        | None => True
        end)) ∧
  (event = "NO_EVENT" → printed) ∧
  (∀ e, event = error_sentinel e → printed).
Proof.
  intros Hclock outs outs_earlier printed.
  assert (∃ self1 out rest,
             run VLM.init earlier = (self1, outs_earlier) ∧
             report self1 time event = out ∧
             outs = outs_earlier ++ out.2 :: rest) as (self1 & out & rest & Hrun & Hrep & Houts).
  { subst outs outs_earlier. rewrite run_app.
    destruct (run VLM.init earlier) as [self1 outs1]. simpl.
    destruct (report self1 time event) as [self1' out] eqn:Hrep.
    destruct (run self1' later) as [self2 outs2].
    by exists self1, (self1', out), outs2. }
  assert (printed ↔ ∃ line, out.2 = Some line) as Hprinted.
  { subst printed. rewrite Houts.
    assert (length earlier = length outs_earlier) as ->.
    { subst outs_earlier. by rewrite run_length. }
    rewrite list_lookup_middle by done.
    split; intros [line Hline]; exists line; congruence. }
  assert (last_event_time self1 !! event =
            if actionable event
            then Some (default 0%Q (last_surfaced event earlier outs_earlier))
            else None) as Hlookup.
  { pose proof (init_lookup event) as Hinit.
    destruct (actionable event).
    - pose proof (run_lookup VLM.init earlier event 0%Q Hinit) as Hl.
      by rewrite Hrun in Hl.
    - pose proof (run_lookup_None VLM.init earlier event Hinit) as Hl.
      by rewrite Hrun in Hl. }
  subst out. unfold report in Hprinted. rewrite Hlookup in Hprinted.
  split; [|split].
  - intros Hact. rewrite Hact in Hprinted. rewrite Hprinted.
    assert ((EVENT_COOLDOWN <
               time - default 0%Q (last_surfaced event earlier outs_earlier))%Q
            ↔ match last_surfaced event earlier outs_earlier with
              | Some last => (EVENT_COOLDOWN < time - last)%Q
              | None => True
              end) as <-.
    { destruct (last_surfaced event earlier outs_earlier); simpl; [done|].
      split; [done|]. intros _.
      assert (time - 0 == time)%Q as -> by ring. done. }
    rewrite <- Qgtb_spec.
    destruct (Datause.Qgtb _ _); simpl; split; try done; eauto.
    by intros [line Hline].
  - intros Hev. apply Hprinted. rewrite Hev. simpl. eauto.
  - intros e Hev. apply Hprinted. rewrite Hev.
    assert (actionable (error_sentinel e) = false) as -> by done.
    assert (String.eqb (error_sentinel e) "NO_EVENT" = false) as -> by done.
    assert (contains "ERROR" (error_sentinel e) = true) as ->.
    { apply contains_spec. by exists "", (": " +:+ e). }
    simpl. eauto.
Qed.

Lemma debounce_policy_witness :
  (EVENT_COOLDOWN < 1003)%Q ∧
  (∃ line, (run VLM.init [(1000%Q, "KILL"); (1003%Q, "KILL")]).2 !! 1%nat
             = Some (Some line)).
Proof.
  split; [reflexivity|].
  destruct (debounce_policy [(1000%Q, "KILL")] 1003%Q "KILL" [] eq_refl) as (Hact & _).
  apply (Hact eq_refl). vm_compute. reflexivity.
Defined.

(** Two KILLs one second apart print once, three seconds apart twice;
    NO_EVENT and the other labels print each time. *)
Example debounce_scenario :
  (run VLM.init [(1000%Q, "KILL"); (1001%Q, "KILL"); (1001.5%Q, "NO_EVENT");
                 (1002%Q, "NO_EVENT"); (1002.5%Q, "DEATH"); (1003.5%Q, "KILL")]).2
  = [Some (Detected "KILL"); None; Some (Plain "NO_EVENT");
     Some (Plain "NO_EVENT"); Some (Detected "DEATH"); Some (Detected "KILL")].
Proof. vm_compute. reflexivity. Qed.

End debounce.

(** ** DataAgent._run_polling: one iteration *)

Section iteration.
Import SnapshotDiffer DataAgent Stmt Sample.

Lemma for_each_process now snapshot changes s :
  for_each changes (fun change => process_change now change snapshot) s =
    (tt,
     mkAgent (grid_poller s)
             (process_all (List.map (fun change => (now, change, snapshot)) changes)
                          (tactical_logger s))
             (history_file s),
     List.map OpProcessChange changes).
Proof.
  revert s. induction changes as [|change changes IH]; intros s.
  - by destruct s.
  - cbn [for_each]. unfold mbind, agent_bind. cbn [process_change].
    rewrite IH. reflexivity.
Qed.

Lemma tick_accepted i s snapshot :
  poll i (grid_poller s) = Some snapshot →
  tick i s =
    (tt, accepted_state i snapshot s,
     [OpPoll (Some snapshot); OpAppendHistory snapshot; OpSaveHistory;
      OpDiff (GRIDPoller.last_snapshot (grid_poller s)) snapshot]
     ++ List.map OpProcessChange (diff (GRIDPoller.last_snapshot (grid_poller s)) snapshot)
     ++ [OpSetLastSnapshot snapshot;
         OpSleep (GRIDPoller.poll_interval (grid_poller s))]).
Proof.
  intros Hpoll. unfold tick, mbind, agent_bind, poll_snapshot. rewrite Hpoll.
  cbn [append_history save_history differ_diff with_poller grid_poller
       tactical_logger history_file GRIDPoller.last_snapshot].
  rewrite for_each_process.
  cbn [set_last_snapshot sleep_interval with_poller grid_poller tactical_logger
       history_file GRIDPoller.poll_interval app].
  rewrite <- app_assoc. reflexivity.
Qed.

Lemma tick_rejected i s :
  poll i (grid_poller s) = None →
  tick i s = (tt, s, [OpPoll None; OpSleep (GRIDPoller.poll_interval (grid_poller s))]).
Proof.
  intros Hpoll. unfold tick, mbind, agent_bind, poll_snapshot. rewrite Hpoll.
  reflexivity.
Qed.

Lemma exec_tick_accepted i s snapshot :
  poll i (grid_poller s) = Some snapshot →
  exec (tick i) s = accepted_state i snapshot s.
Proof. intros Hpoll. unfold exec. by rewrite (tick_accepted i s snapshot). Qed.

Lemma exec_tick_rejected i s :
  poll i (grid_poller s) = None → exec (tick i) s = s.
Proof. intros Hpoll. unfold exec. by rewrite tick_rejected. Qed.

Lemma last_n_split {A} n (l : list A) :
  ∃ evicted, l = evicted ++ GRIDPoller.last_n n l ∧
             length (GRIDPoller.last_n n l) = (n `min` length l)%nat.
Proof.
  unfold GRIDPoller.last_n. exists (take (length l - n) l).
  split; [by rewrite take_drop|]. rewrite length_drop. lia.
Qed.

Lemma last_n_snoc {A} n (l : list A) x :
  GRIDPoller.last_n (S n) (l ++ [x]) = GRIDPoller.last_n n l ++ [x].
Proof.
  unfold GRIDPoller.last_n. rewrite length_app. simpl.
  replace (length l + 1 - S n)%nat with (length l - n)%nat by lia.
  rewrite drop_app_le by lia. done.
Qed.

(** C4, as the code has it.  An iteration that gets a snapshot first
    appends it to the history list and writes the history file, then
    diffs it against the previous snapshot, then hands each change event
    to the tactical logger in order, and sets the previous snapshot last
    (before sleeping). *)
Theorem tick_call_order i s snapshot :
  poll i (grid_poller s) = Some snapshot →
  let old := GRIDPoller.last_snapshot (grid_poller s) in
  calls (tick i) s =
    [OpPoll (Some snapshot); OpAppendHistory snapshot; OpSaveHistory; OpDiff old snapshot]
    ++ List.map OpProcessChange (diff old snapshot)
    ++ [OpSetLastSnapshot snapshot; OpSleep (GRIDPoller.poll_interval (grid_poller s))] ∧
  before is_persist is_diff (calls (tick i) s) ∧
  GRIDPoller.last_snapshot (grid_poller (exec (tick i) s)) = Some snapshot.
Proof.
  intros Hpoll old. unfold calls, exec. rewrite (tick_accepted i s snapshot Hpoll).
  split; [done|]. split; [|done].
  exists 1%nat, 3%nat. split; [done|]. split; [done|]. lia.
Qed.

Lemma tick_call_order_witness :
  calls (tick (tick_returning sova_dead)) after_first_poll =
    [OpPoll (Some sova_dead); OpAppendHistory sova_dead; OpSaveHistory;
     OpDiff (Some both_alive) sova_dead;
     OpProcessChange (player_died (with_alive false sova));
     OpSetLastSnapshot sova_dead; OpSleep 5].
Proof.
  destruct (tick_call_order (tick_returning sova_dead) after_first_poll sova_dead eq_refl)
    as (Hcalls & _).
  exact Hcalls.
Defined.

(** C4 as stated fails: in this iteration the diff is not made before
    the snapshot is persisted. *)
Lemma tick_order_counterexample :
  ¬ (before is_diff is_detect (calls (tick (tick_returning sova_dead)) after_first_poll) ∧
     before is_detect is_persist (calls (tick (tick_returning sova_dead)) after_first_poll)).
Proof.
  intros [_ (i & j & Hi & Hj & Hlt)].
  vm_compute in Hi, Hj. simplify_eq. lia.
Qed.

(** C5, as the code has it.  An accepted iteration appends the snapshot
    to the in-memory history and evicts nothing from it; the bound of 50
    is applied to what is written to the history file, which holds the
    most recent snapshots up to 50, oldest left out first. *)
Theorem history_file_window i s snapshot :
  poll i (grid_poller s) = Some snapshot →
  let s' := exec (tick i) s in
  history s' = history s ++ [snapshot] ∧
  (write_ok i = true →
     ∃ evicted window,
       history s' = evicted ++ window ∧
       length window = (50 `min` length (history s'))%nat ∧
       history_file s' = Some (List.map GRIDPoller.snap_dict window)).
Proof.
  intros Hpoll s'. subst s'. rewrite (exec_tick_accepted i s snapshot Hpoll).
  split; [done|]. intros Hok.
  destruct (last_n_split 50 (history s ++ [snapshot])) as (evicted & Hsplit & Hlen).
  exists evicted, (GRIDPoller.last_n 50 (history s ++ [snapshot])).
  split; [exact Hsplit|]. split; [exact Hlen|].
  unfold accepted_state. cbn [history_file]. by rewrite Hok.
Qed.

Lemma history_file_window_witness :
  history (exec (tick live_tick) fresh) =
    [mkSnapshot "2629390" "g1" "t0" [] []] ∧
  history_file (exec (tick live_tick) fresh) =
    Some [GRIDPoller.mkHistoryEntry "2629390" "g1" "t0" []].
Proof.
  destruct (history_file_window live_tick fresh
              (mkSnapshot "2629390" "g1" "t0" [] []) eq_refl) as (Hmem & Hfile).
  split; [exact Hmem|].
  destruct (Hfile eq_refl) as (evicted & window & Hsplit & Hlen & Hsaved).
  rewrite Hmem in Hsplit, Hlen. simpl in Hlen.
  destruct window as [|w [|w' window]]; simpl in Hlen; try discriminate Hlen.
  destruct evicted as [|e evicted]; simpl in Hsplit.
  - injection Hsplit as <-. exact Hsaved.
  - apply (f_equal length) in Hsplit. simpl in Hsplit. rewrite length_app in Hsplit.
    simpl in Hsplit. lia.
Defined.

(** C5 as stated fails: after 51 accepted iterations the in-memory
    history holds 51 snapshots. *)
Lemma history_bound_counterexample :
  ¬ (length (history (exec (_run_polling (replicate 51 live_tick)) fresh)) ≤ 50)%nat.
Proof. vm_compute. lia. Qed.

(** What an iteration does with the result of [poll_snapshot]: nothing
    is stored on [None]; a returned snapshot is appended in memory and
    (when the write goes through) becomes the last entry of the history
    file.  The iteration itself never looks at the player mapping: the
    only test on players is the one [poll_snapshot] makes on the rows,
    returning [None] when the fetch fails or there are no player rows. *)
Lemma tick_stores_polled i s :
  match poll i (grid_poller s) with
  | None =>
      history (exec (tick i) s) = history s ∧
      history_file (exec (tick i) s) = history_file s
  | Some snapshot =>
      history (exec (tick i) s) = history s ++ [snapshot] ∧
      (write_ok i = true →
         ∃ entries, history_file (exec (tick i) s) =
                      Some (entries ++ [GRIDPoller.snap_dict snapshot]))
  end ∧
  (∀ self fetched now,
      GRIDPoller.poll_snapshot self fetched now = None ↔
      match fetched with
      | None => True
      | Some state => Datause.build_rows_from_series_state state = []
      end).
Proof.
  split.
  - destruct (poll i (grid_poller s)) as [snapshot|] eqn:Hpoll.
    + rewrite (exec_tick_accepted i s snapshot Hpoll). split; [done|].
      intros Hok. unfold accepted_state. cbn [history_file]. rewrite Hok.
      unfold GRIDPoller._save_history, GRIDPoller.history_data.
      cbn [GRIDPoller.snapshot_history].
      rewrite (last_n_snoc 49), map_app.
      by eexists.
    + by rewrite (exec_tick_rejected i s Hpoll).
  - intros self fetched now. unfold GRIDPoller.poll_snapshot.
    destruct fetched as [state|]; [|done].
    by destruct (Datause.build_rows_from_series_state state).
Qed.

(** C1.  The code breaks the claim at this input.  The fetched state
    has a player, so [poll_snapshot] gets past its [if not rows] test;
    it then drops the rows and builds the snapshot with an empty player
    mapping, and the iteration stores that snapshot in memory and in the
    history file. *)
Lemma poll_stores_playerless_snapshot :
  length (Datause.build_rows_from_series_state live_state) = 1%nat ∧
  GRIDPoller.poll_snapshot (GRIDPoller.init "2629390") (Some live_state) "t0"
    = Some (mkSnapshot "2629390" "g1" "t0" [] []) ∧
  history (exec (tick live_tick) fresh) = [mkSnapshot "2629390" "g1" "t0" [] []] ∧
  history_file (exec (tick live_tick) fresh)
    = Some [GRIDPoller.mkHistoryEntry "2629390" "g1" "t0" []] ∧
  ¬ stored_players_nonempty (exec (tick live_tick) fresh).
Proof.
  split; [reflexivity|]. split; [reflexivity|]. split; [reflexivity|].
  split; [reflexivity|].
  intros [Hmem _]. vm_compute in Hmem.
  apply Forall_cons in Hmem as [Hne _]. by apply Hne.
Qed.

(** Two polls, both players alive and then one of them dead: the logger
    ends with one FIRST_DEATH event for the dead player and one conclusion
    naming that player's team. *)
Example first_death_scenario :
  tactical_logger (exec (tick (tick_returning sova_dead)) after_first_poll) =
    TacticalEventLogger.mkLogger
      [ mkTacticalEvent "FIRST_DEATH" "t1" "First death of the round: Sova (TeamB)"
          [ ("player", "Sova"); ("team", "TeamB");
            ("position", "Unknown (Unknown)"); ("side", "defender") ] ]
      [ "Entry engagement lost by TeamB at Unknown." ].
Proof. vm_compute. reflexivity. Qed.

End iteration.

(** ** The real poller: stored snapshots have no players *)

Section stub_poller.
Import SnapshotDiffer DataAgent Stmt Sample.

Lemma poll_snapshot_empty self fetched now snapshot :
  GRIDPoller.poll_snapshot self fetched now = Some snapshot → players snapshot = [].
Proof.
  unfold GRIDPoller.poll_snapshot. destruct fetched as [state|]; [|done].
  destruct (Datause.build_rows_from_series_state state); [done|].
  by intros [= <-].
Qed.

Lemma diff_empty_new old new : players new = [] → diff old new = [].
Proof. intros Hnew. destruct old; [|done]. simpl. by rewrite Hnew. Qed.

Lemma only_empty_tick fetched now ev_now ok s :
  only_empty s → only_empty (exec (tick (grid_input fetched now ev_now ok)) s).
Proof.
  intros [Hmem Hfile].
  destruct (poll (grid_input fetched now ev_now ok) (grid_poller s))
    as [snapshot|] eqn:Hpoll.
  - rewrite (exec_tick_accepted _ s snapshot Hpoll).
    apply poll_snapshot_empty in Hpoll.
    assert (Forall (fun snap => players snap = []) (history s ++ [snapshot])) as Hmem'.
    { apply Forall_app. split; [done|]. by apply Forall_singleton. }
    split; [done|]. intros entries. unfold accepted_state. cbn [history_file].
    unfold GRIDPoller._save_history. cbn [write_ok grid_input].
    destruct ok; [|by apply Hfile]. intros [= <-].
    unfold GRIDPoller.history_data, GRIDPoller.last_n.
    cbn [GRIDPoller.snapshot_history].
    apply Forall_fmap. eapply Forall_impl.
    + apply Forall_drop. exact Hmem'.
    + intros snap Hsnap. simpl. by rewrite Hsnap.
  - by rewrite (exec_tick_rejected _ s Hpoll).
Qed.

Lemma exec_loop_cons i rest s :
  exec (loop (i :: rest)) s =
    if GRIDPoller.running (grid_poller s)
    then exec (loop rest) (exec (tick i) s) else s.
Proof.
  unfold exec, state_of. cbn [loop]. unfold mbind, agent_bind, get_running.
  destruct (GRIDPoller.running (grid_poller s)); [|reflexivity].
  cbv beta. destruct (tick i s) as [[[] s1] l1]. simpl.
  by destruct (loop rest s1) as [[[] s2] l2].
Qed.

Lemma only_empty_loop l s :
  only_empty s → only_empty (exec (loop (grid_inputs l)) s).
Proof.
  revert s. induction l as [|[[[fetched now] ev_now] ok] l IH]; intros s Hs; [done|].
  unfold grid_inputs. cbn [List.map]. rewrite exec_loop_cons.
  destruct (GRIDPoller.running (grid_poller s)); [|done].
  apply IH. by apply only_empty_tick.
Qed.

Lemma only_empty_run series_id l :
  only_empty (exec (_run_polling (grid_inputs l)) (DataAgent.init series_id)).
Proof.
  assert (exec (_run_polling (grid_inputs l)) (DataAgent.init series_id) =
          exec (loop (grid_inputs l)) (exec (set_running true) (DataAgent.init series_id)))
    as ->.
  { unfold exec, state_of, _run_polling, mbind, agent_bind. simpl.
    by destruct (loop (grid_inputs l) _) as [[[] s2] l2]. }
  apply only_empty_loop. split; [by apply Forall_nil|]. by intros entries [=].
Qed.

(** C10. Whenever [poll_snapshot] succeeds, the snapshot it returns has
    an empty players mapping; so the differ reports no change events
    between any two snapshots it returns, and every entry the polling
    loop writes to the history file has an empty players object. *)
Theorem poll_snapshot_has_no_players :
  (∀ self fetched now snapshot,
      GRIDPoller.poll_snapshot self fetched now = Some snapshot →
      players snapshot = []) ∧
  (∀ self fetched1 now1 fetched2 now2 snapshot1 snapshot2,
      GRIDPoller.poll_snapshot self fetched1 now1 = Some snapshot1 →
      GRIDPoller.poll_snapshot self fetched2 now2 = Some snapshot2 →
      diff (Some snapshot1) snapshot2 = []) ∧
  (∀ series_id l entries,
      history_file (exec (_run_polling (grid_inputs l)) (DataAgent.init series_id))
        = Some entries →
      Forall (fun e => GRIDPoller.h_players e = []) entries).
Proof.
  split; [apply poll_snapshot_empty|]. split.
  - intros self f1 n1 f2 n2 s1 s2 _ H2. apply diff_empty_new.
    by apply poll_snapshot_empty in H2.
  - intros series_id l entries. by apply only_empty_run.
Qed.

Lemma poll_snapshot_has_no_players_witness :
  GRIDPoller.poll_snapshot (GRIDPoller.init "2629390") (Some live_state) "t0"
    = Some (mkSnapshot "2629390" "g1" "t0" [] []) ∧
  players (mkSnapshot "2629390" "g1" "t0" [] []) = [] ∧
  diff (Some (mkSnapshot "2629390" "g1" "t0" [] []))
       (mkSnapshot "2629390" "g1" "t1" [] []) = [] ∧
  Forall (fun e => GRIDPoller.h_players e = [])
         [GRIDPoller.mkHistoryEntry "2629390" "g1" "t0" [];
          GRIDPoller.mkHistoryEntry "2629390" "g1" "t1" []].
Proof.
  destruct poll_snapshot_has_no_players as (Hplayers & Hdiff & Hfile).
  split; [reflexivity|].
  split; [exact (Hplayers (GRIDPoller.init "2629390") (Some live_state) "t0" _ eq_refl)|].
  split.
  - exact (Hdiff (GRIDPoller.init "2629390") (Some live_state) "t0"
                 (Some live_state) "t1" _ _ eq_refl eq_refl).
  - exact (Hfile "2629390"
             [(Some live_state, "t0", "t0", true); (Some live_state, "t1", "t1", true)]
             _ eq_refl).
Defined.

End stub_poller.

(** * Further properties *)

(** ** SnapshotDiffer.diff: what it reports and what it leaves out *)

Section differ_more.
Import SnapshotDiffer Stmt Stmt2 Sample.

Lemma elem_of_flat_map {A B} (f : A → list B) (l : list A) (b : B) :
  b ∈ flat_map f l ↔ ∃ a, a ∈ l ∧ b ∈ f a.
Proof.
  rewrite list_elem_of_In, in_flat_map. split.
  - intros (a & Hin & Hb). exists a. by rewrite !list_elem_of_In.
  - intros (a & Hin & Hb). exists a. by rewrite <- !list_elem_of_In.
Qed.

Lemma flat_map_nil_all {A B} (f : A → list B) (l : list A) :
  (∀ a, a ∈ l → f a = []) → flat_map f l = [].
Proof.
  induction l as [|a l IH]; intros Hall; [done|]. simpl.
  rewrite (Hall a) by (apply elem_of_cons; by left).
  apply IH. intros a' Hin. apply Hall. apply elem_of_cons. by right.
Qed.

(** X1. Diffing a snapshot against itself reports nothing. *)
Theorem diff_unchanged (s : Snapshot) :
  dict_wf (players s) → diff (Some s) s = [].
Proof.
  intros Hwf. simpl. apply flat_map_nil_all. intros [pid p] Hin.
  apply diff_player_same. by apply get_item.
Qed.

Lemma diff_unchanged_witness : diff (Some both_alive) both_alive = [].
Proof. apply diff_unchanged. unfold dict_wf, keys. compute_done. Defined.

(** X2. A death is reported for a player exactly when that player is an
    item of the new snapshot, dead there, and the old snapshot has the
    same id alive. *)
Theorem diff_reports_death (old new : Snapshot) (q : Player) :
  player_died q ∈ diff (Some old) new ↔
  ∃ pid old_p, (pid, q) ∈ players new ∧
               get (players old) pid = Some old_p ∧
               alive old_p = true ∧ alive q = false.
Proof.
  simpl. rewrite elem_of_flat_map. split.
  - intros ([pid new_p] & Hin & Hev). unfold diff_player in Hev.
    destruct (get (players old) pid) as [old_p|] eqn:Hget; [|by apply elem_of_nil in Hev].
    apply elem_of_app in Hev as [Hev|Hev].
    + destruct (alive old_p) eqn:Ha, (alive new_p) eqn:Hb; simpl in Hev;
        try by apply elem_of_nil in Hev.
      apply list_elem_of_singleton in Hev. injection Hev as <-.
      by exists pid, old_p.
    + destruct (_ && _); [|by apply elem_of_nil in Hev].
      apply list_elem_of_singleton in Hev. discriminate Hev.
  - intros (pid & old_p & Hin & Hget & Ha & Hq). exists (pid, q). split; [done|].
    unfold diff_player. rewrite Hget, Ha, Hq. simpl. apply elem_of_cons. by left.
Qed.

(** X3. A weapon change is only reported towards a weapon: the new weapon
    of every WEAPON_CHANGE event is a non-empty name that differs from
    the old one. *)
Theorem diff_weapon_change_to_weapon (old : option Snapshot) (new : Snapshot) (c : Change) :
  c ∈ diff old new → c_type c = "WEAPON_CHANGE" →
  ∃ w, c_new_weapon c = Some w ∧ w ≠ "" ∧ c_old_weapon c ≠ Some w ∧
       weapon (c_player c) = Some w.
Proof.
  destruct old as [old|]; simpl; [|by intros Hin%elem_of_nil].
  rewrite elem_of_flat_map. intros ([pid new_p] & Hin & Hev) Hty.
  unfold diff_player in Hev.
  destruct (get (players old) pid) as [old_p|]; [|by apply elem_of_nil in Hev].
  apply elem_of_app in Hev as [Hev|Hev].
  - destruct (_ && _); [|by apply elem_of_nil in Hev].
    apply list_elem_of_singleton in Hev. subst c. discriminate Hty.
  - destruct (weapon_neq (weapon old_p) (weapon new_p)) eqn:Hneq; simpl in Hev;
      [|by apply elem_of_nil in Hev].
    destruct (truthy (weapon new_p)) eqn:Htr; [|by apply elem_of_nil in Hev].
    apply list_elem_of_singleton in Hev. subst c. simpl.
    destruct (weapon new_p) as [w|]; [|done]. exists w.
    simpl in Htr. apply negb_true_iff, String.eqb_neq in Htr.
    split; [done|]. split; [done|]. split; [|done].
    intros Hold. rewrite Hold in Hneq. simpl in Hneq.
    by rewrite String.eqb_refl in Hneq.
Qed.

Lemma diff_weapon_change_to_weapon_witness :
  ∃ w, c_new_weapon (weapon_change sova jett) = Some w ∧ w ≠ "".
Proof.
  destruct (diff_weapon_change_to_weapon
              (Some (mkSnapshot "s" "g" "t0" [] [("p1", sova)]))
              (mkSnapshot "s" "g" "t1" [] [("p1", jett)])
              (weapon_change sova jett)) as (w & Hw & Hne & _).
  - apply list_elem_of_singleton. reflexivity.
  - reflexivity.
  - exists w. split; [exact Hw | exact Hne].
Defined.

(** X4. Players that are in only one of the two snapshots produce no
    events: when no id of the new snapshot is an id of the old one, the
    diff is empty. *)
Theorem diff_ignores_join_leave (old new : Snapshot) :
  (∀ pid, pid ∈ keys (players new) → get (players old) pid = None) →
  diff (Some old) new = [].
Proof.
  intros Hnone. simpl. apply flat_map_nil_all. intros [pid p] Hin.
  unfold diff_player. rewrite Hnone; [done|].
  unfold keys. apply list_elem_of_fmap. by exists (pid, p).
Qed.

Lemma diff_ignores_join_leave_witness :
  diff (Some (mkSnapshot "s" "g" "t0" [] [("p1", jett)]))
       (mkSnapshot "s" "g" "t1" [] [("p2", with_alive false sova)]) = [].
Proof.
  apply diff_ignores_join_leave. intros pid Hin.
  apply list_elem_of_singleton in Hin. subst pid. reflexivity.
Defined.

End differ_more.

(** ** TacticalEventLogger: how the log and the conclusions grow *)

Section logger_more.
Import SnapshotDiffer TacticalEventLogger Stmt Stmt2 Sample.

Lemma add_conclusion_present text self :
  str_in_list text (conclusions (_add_conclusion text self)) = true.
Proof.
  unfold _add_conclusion.
  destruct (str_in_list text (conclusions self)) eqn:Hin; [done|]. simpl.
  apply str_in_list_spec. apply elem_of_app. right. by apply list_elem_of_singleton.
Qed.

Lemma add_conclusion_twice text self :
  _add_conclusion text (_add_conclusion text self) = _add_conclusion text self.
Proof.
  unfold _add_conclusion at 1. by rewrite add_conclusion_present.
Qed.

Lemma add_conclusion_grows text self :
  grown_by_at_most_one (conclusions self) (conclusions (_add_conclusion text self)).
Proof.
  unfold _add_conclusion. destruct (str_in_list _ _); [by left|]. right. by eexists.
Qed.

(** X5. A WEAPON_CHANGE never adds a tactical event.  It adds the upgrade
    conclusion when the new weapon is a Vandal, Phantom or Operator and
    that conclusion is not yet listed, and changes nothing otherwise. *)
Theorem weapon_change_conclusion_only now change snapshot self :
  c_type change = "WEAPON_CHANGE" →
  let self' := process_change now change snapshot self in
  let text w := name (c_player change) +:+ " upgraded to " +:+ w +:+ ". Strength increased." in
  event_log self' = event_log self ∧
  (∀ w, c_new_weapon change = Some w →
        w ∈ ["Vandal"; "Phantom"; "Operator"] →
        text w ∉ conclusions self →
        conclusions self' = conclusions self ++ [text w]) ∧
  (∀ w, c_new_weapon change = Some w → text w ∈ conclusions self → self' = self) ∧
  ((∀ w, c_new_weapon change = Some w → w ∉ ["Vandal"; "Phantom"; "Operator"]) →
   self' = self).
Proof.
  intros Hty self' text. subst self'. unfold process_change. rewrite Hty.
  change (String.eqb "WEAPON_CHANGE" "PLAYER_DIED") with false.
  change (String.eqb "WEAPON_CHANGE" "WEAPON_CHANGE") with true. cbv iota.
  unfold premium. split; [|split; [|split]].
  - destruct (c_new_weapon change) as [w|]; [|done].
    destruct (str_in_list w _); [|done]. apply add_conclusion_event_log.
  - intros w -> Hprem Hnew. apply str_in_list_spec in Hprem. rewrite Hprem.
    unfold _add_conclusion, upgrade_conclusion.
    destruct (str_in_list _ (conclusions self)) eqn:Hin; [|done].
    apply str_in_list_spec in Hin. by destruct Hnew.
  - intros w -> Hold. destruct (str_in_list w _); [|done].
    apply str_in_list_spec in Hold. unfold text in Hold.
    unfold _add_conclusion, upgrade_conclusion. cbv zeta. by rewrite Hold.
  - intros Hnot. destruct (c_new_weapon change) as [w|]; [|done].
    destruct (str_in_list w _) eqn:Hprem; [|done].
    apply str_in_list_spec in Hprem. by destruct (Hnot w eq_refl).
Qed.

Lemma weapon_change_conclusion_only_witness :
  conclusions (process_change "t1" (weapon_change sova jett) both_alive
                              TacticalEventLogger.init)
  = ["Jett upgraded to Vandal. Strength increased."].
Proof.
  destruct (weapon_change_conclusion_only "t1" (weapon_change sova jett) both_alive
              TacticalEventLogger.init eq_refl) as (_ & Hadd & _).
  apply (Hadd "Vandal" eq_refl).
  - apply elem_of_cons. by left.
  - apply not_elem_of_nil.
Defined.

(** X6. One [process_change] call never removes or reorders anything: the
    event log and the conclusions each keep what they had and gain at
    most one item at the end. *)
Theorem process_change_only_appends now change snapshot self :
  grown_by_at_most_one (event_log self)
    (event_log (process_change now change snapshot self)) ∧
  grown_by_at_most_one (conclusions self)
    (conclusions (process_change now change snapshot self)).
Proof.
  unfold process_change.
  destruct (String.eqb (c_type change) "PLAYER_DIED").
  - destruct (Z.eqb _ _); [|split; by left]. split.
    + rewrite add_conclusion_event_log. right. by eexists.
    + apply (add_conclusion_grows _ (mkLogger _ (conclusions self))).
  - destruct (String.eqb (c_type change) "WEAPON_CHANGE"); [|split; by left].
    destruct (premium _); [|split; by left]. split.
    + rewrite add_conclusion_event_log. by left.
    + apply add_conclusion_grows.
Qed.

(** [get_tactical_conclusions] returns the most recent conclusions in
    their order: at most five, always the tail of the list, and the whole
    list when it has five or fewer. *)
Theorem get_tactical_conclusions_last_five self :
  (length (get_tactical_conclusions self) ≤ 5)%nat ∧
  (∃ older, conclusions self = older ++ get_tactical_conclusions self) ∧
  ((length (conclusions self) ≤ 5)%nat →
   get_tactical_conclusions self = conclusions self) ∧
  ((5 ≤ length (conclusions self))%nat → length (get_tactical_conclusions self) = 5%nat).
Proof.
  unfold get_tactical_conclusions. split; [rewrite length_drop; lia|].
  split; [eexists; by rewrite take_drop|]. split.
  - intros Hle. replace (length (conclusions self) - 5)%nat with 0%nat by lia. done.
  - intros Hge. rewrite length_drop. lia.
Qed.

(** X7. Processing the same change on the same snapshot again adds no
    further conclusion, whatever the clock reads. *)
Theorem process_change_conclusion_once now1 now2 change snapshot self :
  conclusions (process_change now2 change snapshot
                 (process_change now1 change snapshot self))
  = conclusions (process_change now1 change snapshot self).
Proof.
  unfold process_change.
  destruct (String.eqb (c_type change) "PLAYER_DIED").
  - destruct (Z.eqb _ _); [|done].
    set (text := entry_conclusion (c_player change)).
    pose proof (add_conclusion_present text
                  (mkLogger (event_log self ++ [first_death_event now1 (c_player change)])
                            (conclusions self))) as Hin.
    unfold _add_conclusion at 1. cbn [conclusions]. by rewrite Hin.
  - destruct (String.eqb (c_type change) "WEAPON_CHANGE"); [|done].
    destruct (premium _) as [w|]; [|done]. by rewrite add_conclusion_twice.
Qed.

End logger_more.

(** ** Buckets: order *)

Section buckets_more.
Import Datause Stmt2.

Lemma Qdiv_le_mono (a b m : Q) : (0 < m)%Q → (a <= b)%Q → (a / m <= b / m)%Q.
Proof.
  intros Hm Hab. unfold Qdiv. apply Qmult_le_compat_r; [done|].
  apply Qlt_le_weak, Qinv_lt_0_compat, Hm.
Qed.

(** X8. For a positive maximum, more health never gives a worse bucket:
    critical, damaged, full is the order of growing health. *)
Theorem hp_bucket_monotone (c1 c2 m : Q) :
  (0 < m)%Q → (c1 <= c2)%Q →
  (hp_rank (hp_bucket (Some c1) (Some m)) ≤ hp_rank (hp_bucket (Some c2) (Some m)))%nat.
Proof.
  intros Hm Hle. pose proof (Qdiv_le_mono c1 c2 m Hm Hle) as Hratio.
  unfold hp_bucket.
  destruct (Qeq_bool m 0) eqn:Hz.
  { apply Qeq_bool_iff in Hz. rewrite Hz in Hm. by apply Qlt_irrefl in Hm. }
  destruct (Qgtb (c2 / m) (80 # 100)) eqn:H2f.
  - destruct (Qgtb (c1 / m) (80 # 100)); [done|].
    destruct (Qgtb (c1 / m) (30 # 100)); vm_compute; lia.
  - apply Qgtb_false in H2f.
    assert (Qgtb (c1 / m) (80 # 100) = false) as ->
      by (apply Qgtb_false; by eapply Qle_trans).
    destruct (Qgtb (c2 / m) (30 # 100)) eqn:H2d.
    + destruct (Qgtb (c1 / m) (30 # 100)); vm_compute; lia.
    + apply Qgtb_false in H2d.
      assert (Qgtb (c1 / m) (30 # 100) = false) as ->
        by (apply Qgtb_false; by eapply Qle_trans).
      done.
Qed.

Lemma hp_bucket_monotone_witness :
  (hp_rank (hp_bucket (Some 25%Q) (Some 100%Q))
   ≤ hp_rank (hp_bucket (Some 90%Q) (Some 100%Q)))%nat.
Proof. apply hp_bucket_monotone; [reflexivity | by unfold Qle]. Defined.

(** X9. [armor_bucket] is ['unknown'] only for a missing value; it is
    ['none'] up to 0, ['light'] above 0 up to 25 and ['heavy'] above 25,
    so more armor never gives a lower bucket. *)
Theorem armor_bucket_thresholds :
  armor_bucket None = "unknown" ∧
  (∀ a, (a <= 0)%Q → armor_bucket (Some a) = "none") ∧
  (∀ a, (0 < a)%Q → (a <= 25)%Q → armor_bucket (Some a) = "light") ∧
  (∀ a, (25 < a)%Q → armor_bucket (Some a) = "heavy") ∧
  (∀ a1 a2, (a1 <= a2)%Q →
     (armor_rank (armor_bucket (Some a1)) ≤ armor_rank (armor_bucket (Some a2)))%nat).
Proof.
  assert (∀ a b, Qle_bool a b = false ↔ (b < a)%Q) as Hfalse.
  { intros a b. rewrite <- not_true_iff_false, Qle_bool_iff.
    split; [apply Qnot_le_lt | apply Qlt_not_le]. }
  split; [done|]. split; [|split; [|split]].
  - intros a Ha. simpl. by apply Qle_bool_iff in Ha as ->.
  - intros a H0 H25. simpl. apply Hfalse in H0 as ->.
    by apply Qle_bool_iff in H25 as ->.
  - intros a H25. simpl.
    assert (0 < a)%Q as H0 by (eapply Qlt_trans; [|exact H25]; reflexivity).
    apply Hfalse in H0 as ->. by apply Hfalse in H25 as ->.
  - intros a1 a2 Hle. simpl.
    destruct (Qle_bool a1 0) eqn:H10.
    { destruct (Qle_bool a2 0); [done|]. destruct (Qle_bool a2 25); vm_compute; lia. }
    apply Hfalse in H10.
    assert (Qle_bool a2 0 = false) as ->
      by (apply Hfalse; by eapply Qlt_le_trans).
    destruct (Qle_bool a1 25) eqn:H125.
    { destruct (Qle_bool a2 25); vm_compute; lia. }
    apply Hfalse in H125.
    assert (Qle_bool a2 25 = false) as ->
      by (apply Hfalse; by eapply Qlt_le_trans).
    done.
Qed.

Lemma armor_bucket_thresholds_witness :
  armor_bucket (Some 0%Q) = "none" ∧ armor_bucket (Some 25%Q) = "light" ∧
  armor_bucket (Some 50%Q) = "heavy".
Proof.
  destruct armor_bucket_thresholds as (_ & Hnone & Hlight & Hheavy & _).
  split; [apply Hnone; by unfold Qle|].
  split; [apply Hlight; [reflexivity | by unfold Qle] | apply Hheavy; reflexivity].
Defined.

End buckets_more.

(** ** build_rows_from_series_state and poll_snapshot *)

Section rows.
Import Datause Stmt Stmt3 Sample.

Lemma rows_of_team_length series_id g t :
  length (rows_of_team series_id g t) =
    if String.eqb (typename t) "GameTeamStateValorant" then length (ts_players t) else 0%nat.
Proof.
  unfold rows_of_team. destruct (String.eqb _ _); [|done]. by rewrite length_map.
Qed.

Lemma flat_map_length {A B} (f : A → list B) (l : list A) :
  length (flat_map f l) = sum_list (List.map (fun a => length (f a)) l).
Proof.
  induction l as [|a l IH]; [done|]. simpl. by rewrite length_app, IH.
Qed.

Lemma game_rows_length series_id g :
  length (flat_map (rows_of_team series_id g) (g_teams g)) = valorant_players g.
Proof.
  rewrite flat_map_length. unfold valorant_players. f_equal.
  apply map_ext. intros t. apply rows_of_team_length.
Qed.


(** X11. Every row carries the id of the series document and the id of
    one of its games, and its buckets are among the names the bucket
    functions give. *)
Theorem build_rows_well_formed (state : SeriesState) (row : Row) :
  row ∈ build_rows_from_series_state state →
  r_series_id row = ss_id state ∧
  (∃ g, g ∈ games state ∧ r_game_id row = g_id g) ∧
  r_hp_bucket row ∈ ["unknown"; "full"; "damaged"; "critical"] ∧
  r_armor_bucket row ∈ ["unknown"; "none"; "light"; "heavy"].
Proof.
  unfold build_rows_from_series_state. rewrite elem_of_flat_map.
  intros (g & Hg & Hrow). apply elem_of_flat_map in Hrow as (t & Ht & Hrow).
  unfold rows_of_team in Hrow.
  destruct (String.eqb (typename t) "GameTeamStateValorant");
    [|by apply elem_of_nil in Hrow].
  apply list_elem_of_In, in_map_iff in Hrow as (p & <- & Hp). simpl.
  split; [done|]. split; [by exists g|]. split.
  - unfold hp_bucket. destruct (currentHealth p), (maxHealth p); try set_solver.
    repeat (match goal with |- context [if ?b then _ else _] => destruct b end);
      set_solver.
  - unfold armor_bucket. destruct (currentArmor p); [|set_solver].
    repeat (match goal with |- context [if ?b then _ else _] => destruct b end);
      set_solver.
Qed.

Lemma build_rows_well_formed_witness :
  r_series_id (mkRow "2629390" "g1" "TeamA" "attacker" "Jett" true "full" "heavy") = "2629390".
Proof.
  destruct (build_rows_well_formed live_state
              (mkRow "2629390" "g1" "TeamA" "attacker" "Jett" true "full" "heavy"))
    as (Hid & _).
  - apply list_elem_of_singleton. reflexivity.
  - exact Hid.
Defined.

Lemma game_rows_nil series_id g :
  flat_map (rows_of_team series_id g) (g_teams g) = [] ↔ has_valorant_player g = false.
Proof.
  unfold has_valorant_player. induction (g_teams g) as [|t ts IH]; [done|]. simpl.
  rewrite orb_false_iff, <- IH. unfold rows_of_team, valorant_team_with_player.
  destruct (String.eqb (typename t) "GameTeamStateValorant"); simpl.
  - destruct (ts_players t); simpl; [tauto|]. split; [done|]. by intros [? _].
  - tauto.
Qed.

(** The rows start with a row of the first game that has a player in a
    Valorant team. *)
Lemma build_rows_first series_id (gs : list GameState) :
  match flat_map (fun g => flat_map (rows_of_team series_id g) (g_teams g)) gs with
  | [] => Forall (fun g => has_valorant_player g = false) gs
  | row0 :: _ =>
      ∃ before g after,
        gs = before ++ g :: after ∧
        Forall (fun g' => has_valorant_player g' = false) before ∧
        has_valorant_player g = true ∧ r_game_id row0 = g_id g
  end.
Proof.
  induction gs as [|g gs IH]; [by apply Forall_nil|]. simpl.
  destruct (flat_map (rows_of_team series_id g) (g_teams g)) as [|row rows] eqn:Hg.
  - apply game_rows_nil in Hg. simpl.
    destruct (flat_map _ gs) as [|row0 rows0].
    + by apply Forall_cons.
    + destruct IH as (before & g' & after & -> & Hbefore & Hg' & Hid).
      exists (g :: before), g', after. split; [done|]. split; [by apply Forall_cons|]. done.
  - simpl. exists [], g, gs. split; [done|]. split; [by apply Forall_nil|]. split.
    + destruct (has_valorant_player g) eqn:Hhas; [done|].
      apply (game_rows_nil series_id) in Hhas. congruence.
    + assert (row ∈ flat_map (rows_of_team series_id g) (g_teams g)) as Hin
        by (rewrite Hg; apply elem_of_cons; by left).
      apply elem_of_flat_map in Hin as (t & _ & Hrow). unfold rows_of_team in Hrow.
      destruct (String.eqb _ _); [|by apply elem_of_nil in Hrow].
      by apply list_elem_of_In, in_map_iff in Hrow as (p & <- & _).
Qed.


End rows.

(** ** DataAgent._run_polling: what holds after any number of iterations *)

Section polling_runs.
Import SnapshotDiffer DataAgent Stmt Stmt3 Sample.

Lemma exec_loop_stopped inputs s :
  GRIDPoller.running (grid_poller s) = false → exec (loop inputs) s = s.
Proof.
  intros Hstop. destruct inputs as [|i rest]; [done|].
  by rewrite exec_loop_cons, Hstop.
Qed.

Lemma exec_run_polling inputs s :
  exec (_run_polling inputs) s = exec (loop inputs) (exec (set_running true) s).
Proof.
  unfold exec, state_of, _run_polling, mbind, agent_bind. simpl.
  by destruct (loop inputs _) as [[[] s2] l2].
Qed.

(** An invariant of single iterations holds after the whole loop. *)
Lemma loop_invariant (P : DataAgent.t → Prop) inputs s :
  (∀ i s', P s' → P (exec (tick i) s')) → P s → P (exec (loop inputs) s).
Proof.
  intros Hstep. revert s. induction inputs as [|i rest IH]; intros s Hs; [done|].
  rewrite exec_loop_cons. destruct (GRIDPoller.running (grid_poller s)); [|done].
  by apply IH, Hstep.
Qed.

Lemma exec_tick_cases i s :
  (∃ snapshot, poll i (grid_poller s) = Some snapshot ∧
               exec (tick i) s = accepted_state i snapshot s) ∨
  (poll i (grid_poller s) = None ∧ exec (tick i) s = s).
Proof.
  destruct (poll i (grid_poller s)) as [snapshot|] eqn:Hpoll.
  - left. exists snapshot. split; [done|]. by apply exec_tick_accepted.
  - right. split; [done|]. by apply exec_tick_rejected.
Qed.

(** X13. However long the polling loop runs and whatever it polls, the
    history file never holds more than 50 entries, and what it holds is
    the projection of the tail of some earlier state of the in-memory
    history. *)
Theorem history_file_never_exceeds_50 series_id inputs entries :
  history_file (exec (_run_polling inputs) (DataAgent.init series_id)) = Some entries →
  (length entries ≤ 50)%nat ∧
  ∃ earlier,
    earlier `prefix_of` history (exec (_run_polling inputs) (DataAgent.init series_id)) ∧
    entries = List.map GRIDPoller.snap_dict (GRIDPoller.last_n 50 earlier).
Proof.
  rewrite exec_run_polling. revert entries.
  apply (loop_invariant (fun s => ∀ entries, history_file s = Some entries →
           (length entries ≤ 50)%nat ∧
           ∃ earlier, earlier `prefix_of` history s ∧
                      entries = List.map GRIDPoller.snap_dict (GRIDPoller.last_n 50 earlier)));
    [|by intros entries [=]].
  intros i s Hs entries.
  destruct (exec_tick_cases i s) as [(snapshot & _ & ->)|[_ ->]]; [|by apply Hs].
  unfold accepted_state. cbn [history_file]. unfold GRIDPoller._save_history.
  destruct (write_ok i).
  - intros [= <-]. unfold GRIDPoller.history_data. cbn [GRIDPoller.snapshot_history].
    split.
    + rewrite length_map. unfold GRIDPoller.last_n. rewrite length_drop. lia.
    + by exists (history s ++ [snapshot]).
  - intros Hfile. destruct (Hs entries Hfile) as (Hlen & earlier & Hpre & Heq).
    split; [done|]. exists earlier. split; [|done].
    unfold history. cbn [grid_poller GRIDPoller.snapshot_history].
    by apply prefix_app_r.
Qed.

Lemma history_file_never_exceeds_50_witness :
  (length [GRIDPoller.mkHistoryEntry "2629390" "g1" "t0" []] ≤ 50)%nat.
Proof.
  destruct (history_file_never_exceeds_50 "2629390" [live_tick]
              [GRIDPoller.mkHistoryEntry "2629390" "g1" "t0" []] eq_refl) as [Hlen _].
  exact Hlen.
Defined.

Lemma run_last_snapshot series_id inputs :
  GRIDPoller.last_snapshot
    (grid_poller (exec (_run_polling inputs) (DataAgent.init series_id)))
  = last (history (exec (_run_polling inputs) (DataAgent.init series_id))).
Proof.
  rewrite exec_run_polling.
  apply (loop_invariant (fun s => GRIDPoller.last_snapshot (grid_poller s) = last (history s)));
    [|done].
  intros i s Hs.
  destruct (exec_tick_cases i s) as [(snapshot & _ & ->)|[_ ->]]; [|done].
  unfold accepted_state, history. cbn [grid_poller GRIDPoller.last_snapshot
    GRIDPoller.snapshot_history]. by rewrite last_snoc.
Qed.

(** X14. After any run of the polling loop the previous snapshot is the
    most recent entry of the in-memory history (and there is none while
    the history is empty), so the next diff is always against the
    snapshot stored last. *)
Theorem last_snapshot_is_latest series_id inputs i :
  let s := exec (_run_polling inputs) (DataAgent.init series_id) in
  GRIDPoller.last_snapshot (grid_poller s) = last (history s) ∧
  ∀ snapshot, poll i (grid_poller s) = Some snapshot →
    OpDiff (last (history s)) snapshot ∈ calls (tick i) s.
Proof.
  intros s. pose proof (run_last_snapshot series_id inputs) as Hlast. fold s in Hlast.
  split; [done|]. intros snapshot Hpoll. unfold calls, log_of.
  rewrite (tick_accepted i s snapshot Hpoll). rewrite Hlast. simpl.
  do 3 (apply elem_of_cons; right). apply elem_of_cons. by left.
Qed.

Lemma poll_succeeds_spec self fetched now ev_now ok :
  poll_succeeds (fetched, now, ev_now, ok) = false ↔
  GRIDPoller.poll_snapshot self fetched now = None.
Proof.
  unfold poll_succeeds, GRIDPoller.poll_snapshot, Datause.build_rows_from_series_state.
  simpl. destruct fetched as [state|]; [|done].
  pose proof (build_rows_first (Datause.ss_id state) (Datause.games state)) as Hfirst.
  destruct (flat_map _ (Datause.games state)) as [|row0 rows].
  - split; [done|]. intros _. apply not_true_iff_false. intros Hex.
    apply existsb_exists in Hex as (g & Hg & Hhas).
    apply list_elem_of_In in Hg. rewrite Forall_forall in Hfirst.
    specialize (Hfirst g Hg). congruence.
  - destruct Hfirst as (before & g & after & Hgames & _ & Hg & _).
    split; [|done]. intros Hnone. exfalso.
    apply not_true_iff_false in Hnone. apply Hnone.
    apply existsb_exists. exists g. split; [|done].
    rewrite Hgames. apply in_or_app. right. by left.
Qed.

(** X15. Failed polls leave no trace: running the loop on a sequence of
    remote answers ends in the same state as running it on the answers
    that let the poll succeed, in the same order. *)
Theorem failed_polls_leave_no_trace l s :
  exec (loop (grid_inputs l)) s = exec (loop (grid_inputs (List.filter poll_succeeds l))) s.
Proof.
  revert s. induction l as [|[[[fetched now] ev_now] ok] l IH]; intros s; [done|].
  cbn [List.filter].
  destruct (poll_succeeds (fetched, now, ev_now, ok)) eqn:Hok.
  - unfold grid_inputs. cbn [List.map]. rewrite !exec_loop_cons.
    destruct (GRIDPoller.running (grid_poller s)); [|done]. apply IH.
  - unfold grid_inputs at 1. cbn [List.map]. rewrite exec_loop_cons.
    destruct (GRIDPoller.running (grid_poller s)) eqn:Hrun.
    + rewrite exec_tick_rejected; [apply IH|].
      by apply (poll_succeeds_spec (grid_poller s)) in Hok.
    + by rewrite exec_loop_stopped.
Qed.

End polling_runs.

(** ** VLM: classification results and their reporting *)

Section vlm_more.
Import VLM VLMFrames Stmt.

Lemma filter_label_range labels text :
  filter_label labels text ∈ labels ∨ filter_label labels text = "NO_EVENT".
Proof.
  induction labels as [|label labels IH]; simpl; [by right|].
  destruct (contains label text).
  - left. apply elem_of_cons. by left.
  - destruct IH as [Hin|Heq]; [left; apply elem_of_cons; by right|by right].
Qed.

Lemma filter_label_in_labels text : filter_label LABELS text ∈ LABELS.
Proof.
  destruct (filter_label_range LABELS text) as [Hin|Heq]; [done|]. rewrite Heq.
  unfold LABELS. do 3 (apply elem_of_cons; right). apply elem_of_cons. by left.
Qed.

Lemma query_vlm_range py post :
  query_vlm py post ∈ LABELS ∨ ∃ e, query_vlm py post = error_sentinel e.
Proof.
  pose proof filter_label_in_labels as Hfilter.
  unfold query_vlm. destruct (post REQUEST_TIMEOUT) as [e|e|[|s|e]]; eauto.
Qed.

Lemma actionable_spec label :
  actionable label = true ↔ label ∈ ["KILL"; "DEATH"; "ROUND_END"].
Proof.
  unfold actionable. rewrite !orb_true_iff, !String.eqb_eq, !elem_of_cons, elem_of_nil.
  tauto.
Qed.

Lemma run_init_is_Some results label :
  is_Some (last_event_time (run VLM.init results).1 !! label) ↔ actionable label = true.
Proof.
  pose proof (init_lookup label) as Hinit.
  destruct (actionable label).
  - pose proof (run_lookup VLM.init results label 0%Q Hinit) as Hrun.
    destruct (run VLM.init results) as [self' outs]. simpl. rewrite Hrun.
    split; [done|]. intros _. by eexists.
  - rewrite (run_lookup_None VLM.init results label Hinit).
    split; [|done]. intros [last Hlast]. discriminate Hlast.
Qed.

(** X16. The debounce table keeps exactly its three keys: after any run
    it has an entry for KILL, DEATH and ROUND_END and for nothing else. *)
Theorem debounce_table_keys results label :
  is_Some (last_event_time (run VLM.init results).1 !! label) ↔
  label ∈ ["KILL"; "DEATH"; "ROUND_END"].
Proof. by rewrite run_init_is_Some, actionable_spec. Qed.

(** X17. Nothing [query_vlm] returns is dropped unseen: in any state of
    the loop, its result is printed unless it is a KILL, DEATH or
    ROUND_END held back by the cooldown. *)
Theorem query_result_reported_or_debounced py results time post :
  let self := (run VLM.init results).1 in
  let event := query_vlm py post in
  (report self time event).2 = None →
  actionable event = true ∧
  ∃ last, last_event_time self !! event = Some last ∧
          (time - last <= EVENT_COOLDOWN)%Q.
Proof.
  intros self event. unfold report.
  destruct (last_event_time self !! event) as [last|] eqn:Hl.
  - destruct (Datause.Qgtb (time - last) EVENT_COOLDOWN) eqn:Hgt; [done|].
    intros _. split.
    + apply (run_init_is_Some results). fold self. rewrite Hl. by eexists.
    + exists last. split; [done|]. by apply Qgtb_false.
  - assert (actionable event = false) as Hact.
    { apply not_true_iff_false. intros Hact.
      apply (run_init_is_Some results) in Hact. fold self in Hact.
      rewrite Hl in Hact. by destruct Hact. }
    destruct (query_vlm_range py post) as [Hin|[e He]].
    + fold event in Hin. unfold LABELS in Hin.
      assert (event ∈ ["KILL"; "DEATH"; "ROUND_END"] ∨ event = "NO_EVENT") as [Hin' | ->].
      { rewrite !elem_of_cons, elem_of_nil in Hin. rewrite !elem_of_cons, elem_of_nil.
        tauto. }
      * apply actionable_spec in Hin'. congruence.
      * done.
    + fold event in He. rewrite He.
      assert (String.eqb (error_sentinel e) "NO_EVENT" = false) as -> by done.
      assert (contains "ERROR" (error_sentinel e) = true) as ->; [|done].
      apply contains_spec. by exists "", (": " +:+ e).
Qed.

Lemma query_result_reported_or_debounced_witness :
  actionable (query_vlm ascii_text (fun _ => Json (Text "kill"))) = true.
Proof.
  destruct (query_result_reported_or_debounced ascii_text [(1000%Q, "KILL")] 1001%Q
              (fun _ => Json (Text "kill"))) as [Hact _].
  - vm_compute. reflexivity.
  - exact Hact.
Defined.

Lemma last_surfaced_bounds label results outs last :
  last_surfaced label results outs = Some last →
  ∃ time, (time, label) ∈ results ∧ last = time.
Proof.
  revert outs. induction results as [|[time event] results IH]; intros [|out outs];
    simpl; try done.
  destruct (last_surfaced label results outs) as [later|] eqn:Hlater.
  - intros [= <-]. destruct (IH outs Hlater) as (t & Hin & Heq).
    exists t. split; [|done]. apply elem_of_cons. by right.
  - destruct out; [|done]. destruct (String.eqb_spec event label) as [->|]; [|done].
    intros [= <-]. exists time. split; [|done]. apply elem_of_cons. by left.
Qed.

Lemma last_surfaced_app label r1 r2 o1 o2 :
  length r1 = length o1 →
  last_surfaced label (r1 ++ r2) (o1 ++ o2) =
    match last_surfaced label r2 o2 with
    | Some later => Some later
    | None => last_surfaced label r1 o1
    end.
Proof.
  revert o1. induction r1 as [|[time event] r1 IH]; intros [|out o1] Hlen;
    simpl in *; try done.
  - by destruct (last_surfaced label r2 o2).
  - rewrite IH by lia. by destruct (last_surfaced label r2 o2).
Qed.

(** X18. Quiet period.  When a KILL, DEATH or ROUND_END has been printed
    at clock time [t1], a result of the same label read at [t2], no more
    than the cooldown after [t1], is not printed, provided the clock has
    not run backwards in between. *)
Theorem debounce_quiet_period earlier t1 between t2 later label :
  actionable label = true →
  Forall (fun r => (t1 <= r.1)%Q) between →
  (t2 - t1 <= EVENT_COOLDOWN)%Q →
  let outs := (run VLM.init (earlier ++ (t1, label) :: between ++ (t2, label) :: later)).2 in
  (∃ line, outs !! length earlier = Some (Some line)) →
  outs !! (length earlier + 1 + length between)%nat = Some None.
Proof.
  intros Hact Hclock Hclose outs Hfirst. subst outs.
  replace (earlier ++ (t1, label) :: between ++ (t2, label) :: later)
    with ((earlier ++ (t1, label) :: between) ++ (t2, label) :: later) in *
    by (by rewrite <- app_assoc).
  rewrite run_app in *.
  pose proof (run_length VLM.init (earlier ++ (t1, label) :: between)) as Hlen.
  pose proof (run_lookup VLM.init (earlier ++ (t1, label) :: between) label 0%Q) as Htable.
  rewrite init_lookup, Hact in Htable. specialize (Htable eq_refl).
  destruct (run VLM.init (earlier ++ (t1, label) :: between)) as [self1 outs1] eqn:Hrun1.
  simpl in Hlen. rewrite length_app in Hlen. simpl in Hlen.
  cbn [run] in *. destruct (report self1 t2 label) as [self2 out2] eqn:Hrep.
  destruct (run self2 later) as [self3 outs3]. simpl in *.
  rewrite lookup_app_l in Hfirst by lia.
  replace (length earlier + 1 + length between)%nat with (length outs1 + 0)%nat by lia.
  rewrite lookup_app_r by lia. replace (length outs1 + 0 - length outs1)%nat with 0%nat by lia.
  simpl. f_equal.
  (* the table holds a time not before [t1] *)
  assert (∃ last, last_surfaced label (earlier ++ (t1, label) :: between) outs1 = Some last
                  ∧ (t1 <= last)%Q) as (last & Hlast & Hge).
  { rewrite run_app in Hrun1.
    destruct (run VLM.init earlier) as [self0 outs0] eqn:Hrun0.
    pose proof (run_length VLM.init earlier) as Hlen0. rewrite Hrun0 in Hlen0. simpl in Hlen0.
    cbn [run] in Hrun1. destruct (report self0 t1 label) as [self0' out1].
    destruct (run self0' between) as [self0'' outsb]. injection Hrun1 as <- <-.
    rewrite lookup_app_r in Hfirst by lia.
    replace (length earlier - length outs0)%nat with 0%nat in Hfirst by lia.
    simpl in Hfirst. destruct Hfirst as [line [= ->]].
    rewrite last_surfaced_app by done. simpl. rewrite String.eqb_refl.
    destruct (last_surfaced label between outsb) as [later'|] eqn:Hb.
    - exists later'. split; [done|].
      apply last_surfaced_bounds in Hb as (t & Hin & ->).
      rewrite Forall_forall in Hclock. apply (Hclock (t, label) Hin).
    - exists t1. split; [done|]. apply Qle_refl. }
  rewrite Hlast in Htable. simpl in Htable.
  unfold report in Hrep. rewrite Htable in Hrep.
  assert (Datause.Qgtb (t2 - last) EVENT_COOLDOWN = false) as Hno.
  { apply Qgtb_false. eapply Qle_trans; [|exact Hclose].
    unfold Qminus. apply Qplus_le_r. by apply Qopp_le_compat. }
  rewrite Hno in Hrep. by injection Hrep as <- <-.
Qed.

Lemma debounce_quiet_period_witness :
  (run VLM.init [(1000%Q, "KILL"); (1000.5%Q, "NO_EVENT"); (1001%Q, "KILL")]).2
    !! 2%nat = Some None.
Proof.
  apply (debounce_quiet_period [] 1000%Q [(1000.5%Q, "NO_EVENT")] 1001%Q [] "KILL").
  - reflexivity.
  - apply Forall_cons. split; [cbn [fst]; unfold Qle; simpl; lia | by apply Forall_nil].
  - unfold Qle. simpl. lia.
  - vm_compute. by eexists.
Defined.

(** ** VLM.detect_events *)

(** Number of flags set in a decoded [detect_events] answer. *)
Lemma event_flags_count event :
  length (List.filter (fun kv => kv.2) (event_flags event)) =
    if bool_decide (event ∈ LABELS) then 1%nat else 0%nat.
Proof.
  unfold event_flags, LABELS. simpl.
  destruct (String.eqb_spec event "KILL") as [->|Hk]; [done|].
  destruct (String.eqb_spec event "DEATH") as [->|Hd]; [done|].
  destruct (String.eqb_spec event "ROUND_END") as [->|Hr]; [done|].
  destruct (String.eqb_spec event "NO_EVENT") as [->|Hn]; [done|].
  simpl. rewrite bool_decide_eq_false_2; [done|].
  rewrite !elem_of_cons, elem_of_nil. tauto.
Qed.

(** X19. [detect_events] on a given image sets exactly one of its four
    flags when the classification went through, and none when the
    request failed; it leaves the frame queue as it was. *)
Theorem detect_events_one_flag {Frame} py (frame : Frame) (queue : list Frame) post :
  let '(events, queue') := detect_events py (Some frame) queue post in
  queue' = queue ∧
  keys events = ["player_killed_enemy"; "player_died"; "round_ended"; "mid"] ∧
  length (List.filter (fun kv => kv.2) events) =
    match post frame 5%Z with
    | Json Absent | Json (Text _) => 1%nat
    | _ => 0%nat
    end.
Proof.
  unfold detect_events. split; [done|]. split; [done|]. rewrite event_flags_count.
  unfold query_vlm, REQUEST_TIMEOUT.
  destruct (post frame 5%Z) as [e|e|[|s|e]]; try done;
    by rewrite bool_decide_eq_true_2 by apply filter_label_in_labels.
Qed.

(** Without an image [detect_events] takes the oldest queued frame
    and classifies it; on an empty queue it does not wait and makes no
    request, and answers with the single key NO_EVENT instead of the
    four flags. *)
Theorem detect_events_from_queue {Frame} py (queue : list Frame) post :
  detect_events py None queue post =
    match queue with
    | [] => ([("NO_EVENT", true)], [])
    | frame :: rest => ((detect_events py (Some frame) rest post).1, rest)
    end ∧
  (queue = [] →
   ∀ post', detect_events py None queue post' = detect_events py None queue post) ∧
  (queue = [] → get (detect_events py None queue post).1 "mid" = None).
Proof.
  destruct queue as [|frame rest]; simpl; by repeat split.
Qed.

End vlm_more.

(** ** VLM.producer_loop: the single-slot frame queue *)

Section frame_queue.
Import VLMFrames.
Context {Frame : Type}.

(** What every reachable state satisfies. *)
Lemma reachable_single_slot (s : Threads Frame) :
  reachable s →
  (length (frame_queue s) ≤ 1)%nat ∧
  (∀ frame, producer s = AtPut frame → frame_queue s = []).
Proof.
  induction 1 as [|s s' Hreach [Hlen Hput] Hstep]; [split; [simpl; lia|done]|].
  destruct Hstep; simpl in *; unfold maxsize in *.
  - split; [done|]. by intros f [=].
  - split; [done|]. by intros f [=].
  - split; [done|]. intros f _. destruct q; [done|simpl in *; lia].
  - split; [lia|]. intros f _. destruct q; [done|simpl in *; lia].
  - split; [done|]. by intros f _.
  - rewrite (Hput frame eq_refl). split; [simpl; lia|]. by intros f [=].
  - split; [lia|]. intros f Hp. specialize (Hput f Hp). discriminate Hput.
Qed.

(** X20. Under any interleaving of the capture thread with readers of
    the queue, the queue never holds more than one frame, and the
    producer's [put] never has to wait: when it is reached the queue is
    empty, and after it the queue holds exactly the new frame. *)
Theorem producer_never_blocks (s : Threads Frame) :
  reachable s →
  (length (frame_queue s) ≤ 1)%nat ∧
  (∀ frame, producer s = AtPut frame →
     ∃ s', step s s' ∧ producer s' = Capturing ∧ frame_queue s' = [frame]).
Proof.
  intros Hreach. destruct (reachable_single_slot s Hreach) as [Hlen Hput].
  split; [done|]. intros frame Hp. specialize (Hput frame Hp).
  destruct s as [p q t]. simpl in *. subst p q.
  exists (mkThreads Capturing ([] ++ [frame]) t). split; [|done].
  apply step_put. unfold maxsize. simpl. lia.
Qed.

(** A stale frame is replaced, not queued behind: if the producer
    starts an iteration while a frame is still in the queue and no reader
    interferes, the iteration ends with only the new frame queued. *)
Theorem stale_frame_replaced (old new : Frame) (t : list Frame) :
  ∃ s1 s2 s3,
    step (mkThreads Capturing [old] t) s1 ∧ step s1 s2 ∧ step s2 s3 ∧
    step s3 (mkThreads Capturing [new] t) ∧
    ∀ s', step s1 s' → producer s' = AtPut new → False.
Proof.
  exists (mkThreads (AtFull new) [old] t), (mkThreads (AtGetNowait new) [old] t),
         (mkThreads (AtPut new) [] t).
  split; [apply step_capture|]. split; [apply step_full; simpl; unfold maxsize; lia|].
  split; [apply step_get_nowait|]. split.
  - apply (step_put [] t new). unfold maxsize. simpl. lia.
  - intros s' Hstep Hp. inversion Hstep; subst; simpl in *; try discriminate.
    unfold maxsize in *. simpl in *. lia.
Qed.

End frame_queue.

Lemma producer_never_blocks_witness :
  ∃ s', VLMFrames.step
          (VLMFrames.mkThreads (VLMFrames.AtPut 2%nat) [] [1%nat]) s' ∧
        VLMFrames.producer s' = VLMFrames.Capturing ∧
        VLMFrames.frame_queue s' = [2%nat].
Proof.
  assert (VLMFrames.reachable
            (VLMFrames.mkThreads (VLMFrames.AtPut 2%nat) [] [1%nat])) as Hreach.
  { (* frame 1 is put, a reader takes it while frame 2 is being tested
       against the queue, and the producer is about to put frame 2 *)
    eapply VLMFrames.reachable_step;
      [|apply (VLMFrames.step_get_nowait_empty [1%nat] 2%nat)].
    eapply VLMFrames.reachable_step;
      [|apply (VLMFrames.step_reader_get (VLMFrames.AtGetNowait 2%nat) 1%nat [] [])].
    eapply VLMFrames.reachable_step;
      [|apply (VLMFrames.step_full [1%nat] [] 2%nat); unfold VLMFrames.maxsize; simpl; lia].
    eapply VLMFrames.reachable_step;
      [|apply (VLMFrames.step_capture [1%nat] [] 2%nat)].
    eapply VLMFrames.reachable_step;
      [|apply (VLMFrames.step_put [] [] 1%nat); unfold VLMFrames.maxsize; simpl; lia].
    eapply VLMFrames.reachable_step;
      [|apply (VLMFrames.step_not_full [] [] 1%nat); unfold VLMFrames.maxsize; simpl; lia].
    eapply VLMFrames.reachable_step;
      [|apply (VLMFrames.step_capture [] [] 1%nat)].
    apply VLMFrames.reachable_start. }
  destruct (producer_never_blocks _ Hreach) as [_ Hput].
  exact (Hput 2%nat eq_refl).
Defined.

(** ** DataAgent: the read side *)

Section reads.
Import SnapshotDiffer DataAgent DataAgentReads Stmt Stmt3 Stmt4 Sample.

(** X21. [get_snapshot_history(limit)] returns the [limit] most recent
    snapshots for a positive limit, but the whole history for limit 0
    (the slice [-0:]), and for a negative limit everything but the first
    [-limit] snapshots. *)
Theorem get_snapshot_history_limit (self : DataAgent.t) (limit : Z) :
  ((1 ≤ limit)%Z →
     get_snapshot_history self limit = GRIDPoller.last_n (Z.to_nat limit) (history self)) ∧
  (limit = 0%Z → get_snapshot_history self limit = history self) ∧
  ((limit < 0)%Z →
     get_snapshot_history self limit = drop (Z.to_nat (- limit)) (history self)).
Proof.
  unfold get_snapshot_history, history, slice_from, GRIDPoller.last_n.
  destruct (GRIDPoller.snapshot_history (grid_poller self)) as [|snap rest] eqn:Hh.
  { split; [|split]; intros _; by rewrite ?drop_nil. }
  set (l := snap :: rest). split; [|split].
  - intros Hpos. assert ((- limit <? 0)%Z = true) as -> by lia. f_equal. lia.
  - intros ->. done.
  - intros Hneg. assert ((- limit <? 0)%Z = false) as -> by lia.
    destruct (Z.le_gt_cases (- limit) (Z.of_nat (length l))) as [Hle|Hgt].
    + f_equal. lia.
    + rewrite !drop_ge; [done|lia|lia].
Qed.

Lemma get_snapshot_history_limit_witness :
  get_snapshot_history (exec (tick live_tick) after_first_poll) 1
    = [mkSnapshot "2629390" "g1" "t0" [] []] ∧
  get_snapshot_history (exec (tick live_tick) after_first_poll) 0
    = [both_alive; mkSnapshot "2629390" "g1" "t0" [] []].
Proof.
  destruct (get_snapshot_history_limit (exec (tick live_tick) after_first_poll) 1)
    as [H1 _].
  destruct (get_snapshot_history_limit (exec (tick live_tick) after_first_poll) 0)
    as (_ & H0 & _).
  split; [rewrite H1 by lia; reflexivity | rewrite H0 by reflexivity; reflexivity].
Defined.

Lemma loop_invariant_grid (P : DataAgent.t → Prop) l s :
  (∀ fetched now ev_now ok s', P s' → P (exec (tick (grid_input fetched now ev_now ok)) s')) →
  P s → P (exec (loop (grid_inputs l)) s).
Proof.
  intros Hstep. revert s.
  induction l as [|[[[fetched now] ev_now] ok] l IH]; intros s Hs; [done|].
  unfold grid_inputs. cbn [List.map]. rewrite exec_loop_cons.
  destruct (GRIDPoller.running (grid_poller s)); [|done].
  by apply IH, Hstep.
Qed.

Lemma nothing_seen_tick fetched now ev_now ok s :
  nothing_seen s → nothing_seen (exec (tick (grid_input fetched now ev_now ok)) s).
Proof.
  intros [Hlog Hlast].
  destruct (exec_tick_cases (grid_input fetched now ev_now ok) s)
    as [(snapshot & Hpoll & ->)|[_ ->]]; [|done].
  apply poll_snapshot_empty in Hpoll. split.
  - unfold accepted_state. cbn [tactical_logger].
    by rewrite (diff_empty_new _ snapshot Hpoll).
  - unfold accepted_state. cbn [grid_poller GRIDPoller.last_snapshot].
    by intros snap [= <-].
Qed.

Lemma nothing_seen_run series_id l :
  nothing_seen (exec (_run_polling (grid_inputs l)) (DataAgent.init series_id)).
Proof.
  rewrite exec_run_polling. apply loop_invariant_grid.
  - intros. by apply nothing_seen_tick.
  - split; [done|]. by intros snap [=].
Qed.

(** X22. The real poller never leads to a tactical event or a
    conclusion: after any run of its loop the logger is as it was
    created, [get_latest_events] is empty, and every query about
    tactics or conclusions gets the "nothing logged yet" answer. *)
Theorem real_poller_logs_nothing series_id l :
  let s := exec (_run_polling (grid_inputs l)) (DataAgent.init series_id) in
  tactical_logger s = TacticalEventLogger.init ∧
  get_latest_events s = [] ∧
  ∀ query,
    VLM.contains "tactical" (lower query) || VLM.contains "conclusion" (lower query) = true →
    fetch_data s query = "No significant tactical events logged yet.".
Proof.
  intros s. destruct (nothing_seen_run series_id l) as [Hlog _]. fold s in Hlog.
  split; [done|]. split.
  - unfold get_latest_events. by rewrite Hlog.
  - intros query Hq. unfold fetch_data. rewrite Hq, Hlog. done.
Qed.

Lemma real_poller_logs_nothing_witness :
  fetch_data (exec (_run_polling (grid_inputs [(Some live_state, "t0", "t0", true)]))
                   (DataAgent.init "2629390"))
             "Any TACTICAL insight?"
  = "No significant tactical events logged yet.".
Proof.
  destruct (real_poller_logs_nothing "2629390" [(Some live_state, "t0", "t0", true)])
    as (_ & _ & Hq).
  apply Hq. vm_compute. reflexivity.
Defined.

(** X23. With the real poller a stats query never shows a player: it is
    answered either with "no live data" or with a summary that counts
    0 of 0 players alive and names no example player. *)
Theorem real_poller_stats_show_no_player series_id l query :
  VLM.contains "tactical" (lower query) || VLM.contains "conclusion" (lower query) = false →
  VLM.contains "stats" (lower query) || VLM.contains "performance" (lower query)
    || VLM.contains "snapshot" (lower query) = true →
  let s := exec (_run_polling (grid_inputs l)) (DataAgent.init series_id) in
  fetch_data s query = "No live GRID data available for stats." ∨
  ∃ snapshot, last (history s) = Some snapshot ∧
    fetch_data s query =
      "GRID Snapshot (Game: " +:+ game_id snapshot +:+ "): 0/0 players alive. ".
Proof.
  intros Htact Hstats s. destruct (nothing_seen_run series_id l) as [_ Hlast].
  fold s in Hlast. pose proof (run_last_snapshot series_id (grid_inputs l)) as Hlatest.
  fold s in Hlatest.
  unfold fetch_data. rewrite Htact, Hstats.
  destruct (GRIDPoller.last_snapshot (grid_poller s)) as [snapshot|]; [|by left].
  right. exists snapshot. split; [by rewrite <- Hlatest|].
  unfold alive_players. rewrite (Hlast snapshot eq_refl). reflexivity.
Qed.

End reads.

Lemma real_poller_stats_show_no_player_witness :
  DataAgentReads.fetch_data
    (Stmt.exec (DataAgent._run_polling
                  (Stmt.grid_inputs [(Some Sample.live_state, "t0", "t0", true)]))
               (DataAgent.init "2629390"))
    "Show me the stats"
  = "GRID Snapshot (Game: g1): 0/0 players alive. ".
Proof.
  destruct (real_poller_stats_show_no_player "2629390"
              [(Some Sample.live_state, "t0", "t0", true)] "Show me the stats"
              eq_refl eq_refl) as [Hnone|(snapshot & Hlast & Hanswer)].
  - vm_compute in Hnone. discriminate Hnone.
  - vm_compute in Hlast. injection Hlast as <-. exact Hanswer.
Defined.

(** ** Brain and the main loop *)

Section consumers.
Import SnapshotDiffer VLM VLMFrames DataAgent DataAgentReads Brain Main Stmt Sample.


Lemma handle_event_other ask data_agent event_type metadata :
  event_type ∉ ["round_ended"; "player_killed_enemy"; "PLAYER_KILLED"; "player_died";
                "PLAYER_DIED"; "FIRST_DEATH"; "WEAPON_DISADVANTAGE_ENGAGEMENT"] →
  handle_event ask data_agent event_type metadata = None.
Proof.
  intros Hnot. unfold handle_event.
  repeat (match goal with
          | |- context [String.eqb event_type ?s] =>
              destruct (String.eqb_spec event_type s) as [->|?];
              [exfalso; apply Hnot; rewrite !elem_of_cons; tauto|]
          end).
  done.
Qed.

(** X25. In the main loop's watch of the screen a classification of
    KILL or DEATH always yields a spoken response and ROUND_END yields
    the post-game agent's answer (when it is not empty); NO_EVENT and a
    failed classification yield none. *)
Theorem vlm_pass_responds_to_actionable {Frame} py ask data_agent
    (frame : Frame) (queue : list Frame) post :
  let event := query_vlm py (post frame) in
  let response := vlm_pass ask data_agent (detect_events py (Some frame) queue post).1 in
  (event = "KILL" → ∃ text, response = Some ("Good job on that kill! " +:+ text)) ∧
  (event = "DEATH" → ∃ text, response = Some ("Tough break. " +:+ text)) ∧
  (event = "ROUND_END" →
     ∃ prompt, response = if String.eqb (ask prompt) "" then None else Some (ask prompt)) ∧
  (event ∉ ["KILL"; "DEATH"; "ROUND_END"] → response = None).
Proof.
  intros event response. subst response. unfold detect_events. cbn [fst].
  fold event. split; [|split; [|split]].
  - intros ->. eexists. reflexivity.
  - intros ->. eexists. reflexivity.
  - intros ->. eexists. reflexivity.
  - intros Hnot.
    destruct (query_vlm_range py (post frame)) as [Hin|[e He]]; fold event in Hin || idtac.
    + unfold LABELS in Hin. rewrite !elem_of_cons, elem_of_nil in Hin.
      rewrite !not_elem_of_cons in Hnot.
      assert (event = "NO_EVENT") as -> by tauto. reflexivity.
    + fold event in He. rewrite He. reflexivity.
Qed.

Lemma vlm_pass_responds_to_actionable_witness :
  ∃ text,
    vlm_pass (fun _ => "ok") fresh
             (detect_events ascii_text (Some 0%nat) [] (fun _ _ => Json (Text "Kill"))).1
    = Some ("Good job on that kill! " +:+ text).
Proof.
  destruct (vlm_pass_responds_to_actionable ascii_text (fun _ => "ok") fresh 0%nat []
              (fun _ _ => Json (Text "Kill"))) as [Hkill _].
  apply Hkill. reflexivity.
Defined.

Lemma slice_last_five {A} (l : list A) :
  slice_from (-5) l = GRIDPoller.last_n 5 l.
Proof.
  unfold slice_from, GRIDPoller.last_n. simpl. f_equal. lia.
Qed.

(** X26. The main loop handles at most the five most recent tactical
    events, oldest first, and then clears the whole event log: events
    older than those five are discarded without being handled.
    Conclusions, poller state and history file are untouched. *)
Theorem grid_pass_drains_log ask data_agent :
  let log := TacticalEventLogger.event_log (tactical_logger data_agent) in
  let '(responses, after) := grid_pass ask data_agent in
  responses =
    List.map (fun ge => handle_event ask data_agent (event_type_of ge) (Some (metadata ge)))
             (GRIDPoller.last_n 5 log) ∧
  length responses = (5 `min` length log)%nat ∧
  TacticalEventLogger.event_log (tactical_logger after) = [] ∧
  TacticalEventLogger.conclusions (tactical_logger after)
    = TacticalEventLogger.conclusions (tactical_logger data_agent) ∧
  grid_poller after = grid_poller data_agent ∧
  history_file after = history_file data_agent.
Proof.
  unfold grid_pass, get_latest_events.
  destruct (TacticalEventLogger.event_log (tactical_logger data_agent))
    as [|ev log] eqn:Hlog.
  { simpl. by rewrite Hlog. }
  rewrite slice_last_five.
  destruct (last_n_split 5 (ev :: log)) as (evicted & Hsplit & Hlen).
  destruct (GRIDPoller.last_n 5 (ev :: log)) as [|ge latest] eqn:Hlast.
  { simpl in Hlen. lia. }
  split; [done|]. split; [by rewrite length_map|]. done.
Qed.

(** From logger to speech: the FIRST_DEATH event the logger records
    for a player is answered by the warning that quotes the player's
    region and quadrant. *)
Theorem first_death_warning ask data_agent now player :
  let ge := TacticalEventLogger.first_death_event now player in
  handle_event ask data_agent (event_type_of ge) (Some (metadata ge)) =
    Some ("Warning: First death of the round. Current position context: "
          +:+ (region_rc (position player) +:+ " (" +:+ quadrant (position player) +:+ ")")
          +:+ ". IGL should consider rotation.").
Proof. reflexivity. Qed.

End consumers.

(** ** Positions and regions *)

Section geometry.
Import Datause Geometry.

Lemma py_max_spec a b : (a <= py_max a b)%Q ∧ (b <= py_max a b)%Q ∧
                        (py_max a b = a ∨ py_max a b = b).
Proof.
  unfold py_max. destruct (Qgtb b a) eqn:H.
  - apply Qgtb_spec in H. split; [by apply Qlt_le_weak|]. split; [apply Qle_refl|by right].
  - apply Qgtb_false in H. split; [apply Qle_refl|]. split; [done|by left].
Qed.

Lemma py_min_spec a b : (py_min a b <= a)%Q ∧ (py_min a b <= b)%Q ∧
                        (py_min a b = a ∨ py_min a b = b).
Proof.
  unfold py_min. destruct (Qgtb a b) eqn:H.
  - apply Qgtb_spec in H. split; [by apply Qlt_le_weak|]. split; [apply Qle_refl|by right].
  - apply Qgtb_false in H. split; [apply Qle_refl|]. split; [done|by left].
Qed.

Lemma clamp01_range v : (0 <= clamp01 v)%Q ∧ (clamp01 v <= 999999 # 1000000)%Q.
Proof.
  unfold clamp01.
  destruct (py_max_spec v 0) as (_ & Hge & _).
  destruct (py_min_spec (py_max v 0) (999999 # 1000000)) as (_ & Hle & [Heq | Heq]);
    rewrite Heq in *.
  - done.
  - split; [by unfold Qle|apply Qle_refl].
Qed.

Lemma int_of_range q (n : Z) :
  (0 <= q)%Q → (q < inject_Z n)%Q → (0 ≤ int_of q < n)%Z.
Proof.
  intros Hge Hlt. unfold int_of.
  assert (0 ≤ Qnum q)%Z as Hnum.
  { unfold Qle in Hge. simpl in Hge. lia. }
  rewrite Z.quot_div_nonneg by lia.
  assert (Qnum q / Z.pos (Qden q) = Qfloor q)%Z as -> by by destruct q.
  split.
  - change 0%Z with (Qfloor 0). by apply Qfloor_resp_le.
  - rewrite Zlt_Qlt. eapply Qle_lt_trans; [apply Qfloor_le|done].
Qed.

Lemma bin_index_range v vmin vmax n :
  (0 < n)%Z → (0 ≤ bin_index v vmin vmax n ≤ n - 1)%Z.
Proof.
  intros Hn. unfold bin_index.
  set (r := clamp01 _). destruct (clamp01_range
    (if Qgtb (Qabs (vmax - vmin)) (1 # 1000000000000)
     then (v - vmin) / (vmax - vmin) else 0)) as [Hlo Hhi]. fold r in Hlo, Hhi.
  assert (0 < inject_Z n)%Q as Hnq by (change 0%Q with (inject_Z 0); by rewrite <- Zlt_Qlt).
  destruct (int_of_range (r * inject_Z n) n) as [H0 Hlt]; [nra|nra|lia].
Qed.



Lemma list_min_spec x0 xs :
  (list_min x0 xs <= x0)%Q ∧ Forall (fun x => (list_min x0 xs <= x)%Q) xs.
Proof.
  unfold list_min. revert x0. induction xs as [|x xs IH]; intros x0; simpl.
  - split; [apply Qle_refl|by apply Forall_nil].
  - destruct (IH (py_min x0 x)) as [Hhead Hrest].
    destruct (py_min_spec x0 x) as (H0 & Hx & _).
    split; [by eapply Qle_trans|]. apply Forall_cons. split; [by eapply Qle_trans|done].
Qed.

Lemma list_max_spec x0 xs :
  (x0 <= list_max x0 xs)%Q ∧ Forall (fun x => (x <= list_max x0 xs)%Q) xs.
Proof.
  unfold list_max. revert x0. induction xs as [|x xs IH]; intros x0; simpl.
  - split; [apply Qle_refl|by apply Forall_nil].
  - destruct (IH (py_max x0 x)) as [Hhead Hrest].
    destruct (py_max_spec x0 x) as (H0 & Hx & _).
    split; [by eapply Qle_trans|]. apply Forall_cons. split; [by eapply Qle_trans|done].
Qed.

Lemma widen_spec lo hi :
  (lo <= hi)%Q → (1 # 1000000 <= widen lo hi - lo)%Q ∧ (hi <= widen lo hi)%Q.
Proof.
  intros Hle. unfold widen.
  assert (Qabs (hi - lo) == hi - lo)%Q as Habs by (apply Qabs_pos; lra).
  destruct (Qgtb (1 # 1000000) (Qabs (hi - lo))) eqn:H.
  - apply Qgtb_spec in H. rewrite Habs in H. split; lra.
  - apply Qgtb_false in H. rewrite Habs in H. split; lra.
Qed.





End geometry.

(** ** The weapon in hand *)

Section inventory.
Import Inventory Stmt5.

(** What the loop has found after a part of the items. *)
Lemma scan_invariant items best fallback :
  fold_left scan items (None, None) = (best, fallback) →
  fallback = head (usable_names items) ∧
  match best with
  | None => equipped_items items = []
  | Some (e, q, name) =>
      (∃ it, it ∈ equipped_items items ∧ usable_name it = Some name ∧
             equipped it = e ∧ quantity it = q) ∧
      Forall (fun it => (equipped it ≤ e)%Z) (equipped_items items)
  end.
Proof.
  revert best fallback. induction items as [|entry items IH] using rev_ind;
    intros best fallback.
  { intros [= <- <-]. done. }
  rewrite fold_left_app. simpl.
  destruct (fold_left scan items (None, None)) as [best0 fallback0].
  destruct (IH best0 fallback0 eq_refl) as [Hfb Hbest]. clear IH.
  unfold usable_names, equipped_items in *. rewrite !omap_app. simpl.
  unfold scan. destruct entry as [it|]; simpl;
    [|intros [= <- <-]; by rewrite !app_nil_r].
  destruct (usable_name it) as [name|] eqn:Hname; simpl;
    [|intros [= <- <-]; by rewrite !app_nil_r].
  assert (match fallback0 with Some f => Some f | None => Some name end
          = head (omap (fun entry => entry ≫= usable_name) items ++ [name])) as Hfb'.
  { rewrite Hfb. by destruct (omap _ items). }
  destruct (0 <? equipped it)%Z eqn:Heq.
  - apply Z.ltb_lt in Heq.
    destruct best0 as [[[e0 q0] n0]|].
    + destruct Hbest as [(it0 & Hin0 & Hn0 & He0 & Hq0) Hmax].
      destruct (tuple_gt (equipped it, quantity it, name) (e0, q0, n0)) eqn:Hgt;
        intros [= <- <-]; (split; [done|]).
      * split.
        -- exists it. split; [|done]. apply elem_of_app. right. by apply list_elem_of_singleton.
        -- apply Forall_app. split; [|by apply Forall_singleton].
           eapply Forall_impl; [exact Hmax|]. intros it' Hle. simpl in *.
           unfold tuple_gt in Hgt. destruct (e0 <? equipped it)%Z eqn:H1; [lia|].
           destruct (equipped it <? e0)%Z eqn:H2; [done|]. lia.
      * split.
        -- exists it0. split; [|done]. apply elem_of_app. by left.
        -- apply Forall_app. split; [done|]. apply Forall_singleton.
           unfold tuple_gt in Hgt. destruct (e0 <? equipped it)%Z eqn:H1; [done|]. lia.
    + intros [= <- <-]. split; [done|]. rewrite Hbest. simpl. split.
      * exists it. split; [|done]. by apply list_elem_of_singleton.
      * by apply Forall_singleton.
  - intros [= <- <-]. split; [done|]. rewrite app_nil_r. done.
Qed.



End inventory.
